(** * Task management API: the task/tag persistence and query layer

    A shallow embedding of [app/models.py], [app/schemas.py] and
    [app/routers/tasks.py].  The relational store is three tables kept as
    lists of rows (row order is the storage order, which an unordered
    [SELECT] returns as it is), the two primary-key sequences, and the
    handlers are state-passing functions in an error monad whose failure
    leaves the store as it was (the session is rolled back).

    Time is an input of every mutating handler: [now] is the value that
    [func.now()] / [datetime.datetime.now] yields while the request runs.
    Timestamps, calendar dates and ids are integers. *)

From Stdlib Require Import ZArith List String Ascii Bool Lia Permutation.
From Stdlib Require Import Sorting.Sorted DecimalString.
Import ListNotations.
Open Scope string_scope.
Open Scope list_scope.
Open Scope Z_scope.

(** ** Python string helpers used by the validators and by [list_tasks] *)

Module PyStr.

(** [str.isspace] on one code point; strings are sequences of code points
    below 256. *)
Definition isspace (c : ascii) : bool :=
  let n := N_of_ascii c in
  (((9 <=? n) && (n <=? 13)) || ((28 <=? n) && (n <=? 32))
   || (n =? 133) || (n =? 160))%N.

Definition lower_char (c : ascii) : ascii :=
  let n := N_of_ascii c in
  if (((65 <=? n) && (n <=? 90))
      || ((192 <=? n) && (n <=? 222) && negb (n =? 215)))%N
  then ascii_of_N (n + 32) else c.

(** [s.lower()] *)
Fixpoint lower (s : string) : string :=
  match s with
  | EmptyString => EmptyString
  | String c r => String (lower_char c) (lower r)
  end.

Fixpoint lstrip (s : string) : string :=
  match s with
  | EmptyString => EmptyString
  | String c r => if isspace c then lstrip r else s
  end.

Fixpoint rstrip (s : string) : string :=
  match s with
  | EmptyString => EmptyString
  | String c r =>
      match rstrip r with
      | EmptyString => if isspace c then EmptyString else String c EmptyString
      | r' => String c r'
      end
  end.

(** [s.strip()] *)
Definition strip (s : string) : string := rstrip (lstrip s).

(** [s.split(sep)] for a one-character separator: never returns the empty
    list, [''.split(',') == ['']]. *)
Fixpoint split (sep : ascii) (s : string) : list string :=
  match s with
  | EmptyString => [EmptyString]
  | String c r =>
      if Ascii.eqb c sep then EmptyString :: split sep r
      else match split sep r with
           | [] => [String c EmptyString]
           | p :: ps => String c p :: ps
           end
  end.

(** Truth value of a [str] / of a [list]. *)
Definition truthy (s : string) : bool :=
  match s with EmptyString => false | _ => true end.

Definition nonempty {A : Type} (l : list A) : bool :=
  match l with [] => false | _ => true end.

Fixpoint all_chars (p : ascii -> bool) (s : string) : bool :=
  match s with
  | EmptyString => true
  | String c r => p c && all_chars p r
  end.

(** [[tag.strip().lower() for tag in v if tag.strip()]] *)
Definition clean (v : list string) : list string :=
  map (fun tag => lower (strip tag)) (filter (fun tag => truthy (strip tag)) v).

End PyStr.

(** ** app/models.py *)

Module Tag.
(** Table [tags]: [id] primary key, autoincrement; [name] String(100),
    unique, not null. *)
Record t : Type := mk { id : Z; name : string }.

Definition eq_dec (a b : t) : {a = b} + {a <> b}.
Proof. decide equality; [apply string_dec | apply Z.eq_dec]. Defined.
End Tag.

Module Task.
(** Table [tasks].  [description] and [deleted_at] are the nullable
    columns. *)
Record t : Type := mk {
  id : Z;
  title : string;
  description : option string;
  priority : Z;
  due_date : Z;
  completed : bool;
  is_deleted : bool;
  deleted_at : option Z;
  created_at : Z;
  updated_at : Z
}.

Definition eq_dec (a b : t) : {a = b} + {a <> b}.
Proof.
  decide equality;
    repeat (first [ apply Z.eq_dec | apply string_dec | apply bool_dec
                  | decide equality ]).
Defined.
End Task.

(** The database: the three tables and the two id sequences. *)
Record DB : Type := mkDB {
  tbl_tasks : list Task.t;
  tbl_tags : list Tag.t;
  tbl_task_tags : list (Z * Z);    (* (task_id, tag_id), composite primary key *)
  tasks_id_seq : Z;
  tags_id_seq : Z
}.

Definition empty_db : DB := mkDB [] [] [] 1 1.

(** A [Task] as the ORM hands it out: the row with its [tags] collection
    loaded. *)
Record TaskORM : Type := mkORM { row : Task.t; tags : list Tag.t }.

(** ** Outcomes *)

Inductive error : Type :=
| HTTP404                 (* HTTPException(status_code=404, detail="Task not found") *)
| MultipleResultsFound    (* scalar_one_or_none on more than one row *)
| IntegrityError          (* NOT NULL or UNIQUE violated at flush *)
| DataError               (* value too long for a String(n) column *)
| DBAPIError              (* a parameter outside the 32-bit range of an Integer column *)
| OverflowError           (* LIMIT or OFFSET outside the 64-bit range *)
| RequestValidationError. (* a Query(...) bound refused the parameter: 422 *)

Inductive result (A : Type) : Type :=
| Ok (a : A)
| Raise (e : error).
Arguments Ok {A} a.
Arguments Raise {A} e.

Definition bind {A B : Type} (m : result A) (k : A -> result B) : result B :=
  match m with
  | Ok a => k a
  | Raise e => Raise e
  end.

Notation "x <- m ;; k" := (bind m (fun x => k))
  (at level 61, m at next level, right associativity).
Notation "' p <- m ;; k" := (bind m (fun x => match x with p => k end))
  (at level 61, p pattern, m at next level, right associativity).

Definition scalar_one_or_none {A : Type} (rows : list A) : result (option A) :=
  match rows with
  | [] => Ok None
  | [r] => Ok (Some r)
  | _ => Raise MultipleResultsFound
  end.

(** ** app/schemas.py *)

Module TaskCreate.
(** A validated request body of [POST /tasks].  [due_date] is the date the
    validator parsed out of the ISO string. *)
Record t : Type := mk {
  title : string;
  description : option string;
  priority : Z;
  due_date : Z;
  tags : option (list string)
}.

Definition validate_tags (v : option (list string)) : option (list string) :=
  match v with
  | Some l =>
      let cleaned := PyStr.clean l in
      if PyStr.nonempty cleaned then Some cleaned else None
  | None => None
  end.

(** Building the model from a request body runs the field validators. *)
Definition model_validate (body : t) : t :=
  mk (title body) (description body) (priority body) (due_date body)
     (validate_tags (tags body)).
End TaskCreate.

(** One field of a partial-update body: left out of the JSON object, or
    given, possibly as [null].  [model_dump(exclude_unset=True)] keeps
    exactly the given ones. *)
Inductive field (A : Type) : Type :=
| Unset
| Given (v : option A).
Arguments Unset {A}.
Arguments Given {A} v.

Module TaskUpdate.
Record t : Type := mk {
  title : field string;
  description : field string;
  priority : field Z;
  due_date : field Z;
  completed : field bool;
  tags : field (list string)
}.

Definition validate_tags (v : option (list string)) : option (list string) :=
  match v with
  | Some l =>
      let cleaned := PyStr.clean l in
      if PyStr.nonempty cleaned then Some cleaned else None
  | None => None
  end.

(** The validator of a field runs when the field is given, [null]
    included; a field left out keeps its default and stays unset. *)
Definition model_validate (body : t) : t :=
  mk (title body) (description body) (priority body) (due_date body)
     (completed body)
     (match tags body with
      | Unset => Unset
      | Given v => Given (validate_tags v)
      end).

Definition empty : t := mk Unset Unset Unset Unset Unset Unset.
End TaskUpdate.

(** Response body of [GET /tasks]. *)
Record PaginatedTaskResponse : Type := mkPage {
  total : Z;
  limit : Z;
  offset : Z;
  tasks : list TaskORM
}.

(** ** The storage layer under the handlers *)

Definition set_tasks (db : DB) (ts : list Task.t) : DB :=
  mkDB ts (tbl_tags db) (tbl_task_tags db) (tasks_id_seq db) (tags_id_seq db).

Definition set_task_tags (db : DB) (rs : list (Z * Z)) : DB :=
  mkDB (tbl_tasks db) (tbl_tags db) rs (tasks_id_seq db) (tags_id_seq db).

(** [INSERT INTO tags (name)]: String(100), unique, id from the sequence. *)
Definition insert_tag (name : string) (db : DB) : result (Tag.t * DB) :=
  if 100 <? Z.of_nat (String.length name) then Raise DataError
  else if existsb (fun g => String.eqb (Tag.name g) name) (tbl_tags db)
  then Raise IntegrityError
  else
    let tag := Tag.mk (tags_id_seq db) name in
    Ok (tag, mkDB (tbl_tasks db) (tbl_tags db ++ [tag]) (tbl_task_tags db)
                  (tasks_id_seq db) (tags_id_seq db + 1)).

(** Column checks of a [tasks] row: title is String(200). *)
Definition check_task (r : Task.t) : result Task.t :=
  if 200 <? Z.of_nat (String.length (Task.title r)) then Raise DataError
  else Ok r.

(** The [tags] relationship of a task (loaded [selectin]): the tag rows
    joined through the association table. *)
Definition task_tags_of (db : DB) (task_id : Z) : list Tag.t :=
  flat_map
    (fun r => if fst r =? task_id
              then filter (fun g => Tag.id g =? snd r) (tbl_tags db)
              else [])
    (tbl_task_tags db).

Definition load (db : DB) (r : Task.t) : TaskORM :=
  mkORM r (task_tags_of db (Task.id r)).

(** Flushing [task.tags = new_tags]: the unit of work deletes the
    association rows of the tags that left the collection and inserts one
    row for each tag that entered it; the table is keyed on the pair, so a
    tag listed twice is written once. *)
Definition assign_tags (task_id : Z) (new_tags : list Tag.t) (db : DB) : DB :=
  let new_ids := nodup Z.eq_dec (map Tag.id new_tags) in
  let old_ids :=
    map snd (filter (fun r => fst r =? task_id) (tbl_task_tags db)) in
  let kept :=
    filter (fun r => negb (fst r =? task_id)
                     || existsb (Z.eqb (snd r)) new_ids)
           (tbl_task_tags db) in
  let added := filter (fun i => negb (existsb (Z.eqb i) old_ids)) new_ids in
  set_task_tags db (kept ++ map (fun i => (task_id, i)) added).

(** [UPDATE tasks SET ... WHERE tasks.id = :id] *)
Definition update_row (r : Task.t) (db : DB) : DB :=
  set_tasks db
    (map (fun t => if Task.id t =? Task.id r then r else t) (tbl_tasks db)).

(** The rows of
    [select(Task).where(Task.id == task_id, Task.is_deleted == False)] once
    [task_id] is bound as a parameter of the statement.  Binding it is a
    step of its own, which fails for an integer that the column type cannot
    hold: see [bind_id] and the requests built on it below. *)
Definition select_live (task_id : Z) (db : DB) : list Task.t :=
  filter (fun t => (Task.id t =? task_id) && negb (Task.is_deleted t))
         (tbl_tasks db).

(** ** app/routers/tasks.py *)

Fixpoint _get_or_create_tags (tag_names : list string) (db : DB)
  : result (list Tag.t * DB) :=
  match tag_names with
  | [] => Ok ([], db)
  | name :: rest =>
      found <- scalar_one_or_none
                 (filter (fun g => String.eqb (Tag.name g) name) (tbl_tags db)) ;;
      '(tag, db1) <- match found with
                     | None => insert_tag name db
                     | Some tag => Ok (tag, db)
                     end ;;
      '(tags, db2) <- _get_or_create_tags rest db1 ;;
      Ok (tag :: tags, db2)
  end.

Definition create_task (payload : TaskCreate.t) (now : Z) (db : DB)
  : result (TaskORM * DB) :=
  '(tags, db1) <- match TaskCreate.tags payload with
                  | Some names =>
                      if PyStr.nonempty names
                      then _get_or_create_tags names db
                      else Ok ([], db)
                  | None => Ok ([], db)
                  end ;;
  task <- check_task
            (Task.mk (tasks_id_seq db1)
                     (TaskCreate.title payload)
                     (TaskCreate.description payload)
                     (TaskCreate.priority payload)
                     (TaskCreate.due_date payload)
                     false false None now now) ;;
  let db2 := mkDB (tbl_tasks db1 ++ [task]) (tbl_tags db1) (tbl_task_tags db1)
                  (tasks_id_seq db1 + 1) (tags_id_seq db1) in
  let db3 := assign_tags (Task.id task) tags db2 in
  Ok (load db3 task, db3).

(** [ORDER BY tasks.created_at DESC].  The statement names no second key:
    among rows created at the same instant the engine is free, and may
    answer two executions differently.  The order taken here is the stable
    one, which is one of the orders the engine may return; what is proved
    of the order of a page either holds of every such order or assumes
    creation times that differ. *)
Fixpoint insert_desc (t : Task.t) (l : list Task.t) : list Task.t :=
  match l with
  | [] => [t]
  | x :: r =>
      if Task.created_at x <=? Task.created_at t then t :: l
      else x :: insert_desc t r
  end.

Definition order_by_created_at_desc (l : list Task.t) : list Task.t :=
  fold_right insert_desc [] l.

(** [Result.unique()]: ORM objects are compared by identity, which the
    identity map ties to the primary key; the first occurrence stays. *)
Fixpoint unique (seen : list Z) (l : list Task.t) : list Task.t :=
  match l with
  | [] => []
  | x :: r =>
      if existsb (Z.eqb (Task.id x)) seen then unique seen r
      else x :: unique (Task.id x :: seen) r
  end.

(** The list comprehension over the [tags] query parameter. *)
Definition tag_names_of (tags : string) : list string :=
  map (fun t => PyStr.lower (PyStr.strip t))
      (filter (fun t => PyStr.truthy (PyStr.strip t)) (PyStr.split "," tags)).

(** The conjunction in [filters]. *)
Definition where_filters (completed : option bool) (priority : option Z)
    (t : Task.t) : bool :=
  negb (Task.is_deleted t)
  && match completed with
     | Some c => Bool.eqb (Task.completed t) c
     | None => true
     end
  && match priority with
     | Some p => Task.priority t =? p
     | None => true
     end.

(** [query.join(Task.tags).where(Tag.name.in_(tag_names)).distinct()]: one
    row per (task, association row, tag) that passes, then DISTINCT over the
    task columns.  Which rows come out is fixed by the statement; the order
    in which they come out before ORDER BY is the engine's, and the one here
    is the storage order. *)
Definition join_tags (tag_names : list string) (rows : list Task.t) (db : DB)
  : list Task.t :=
  nodup Task.eq_dec
    (flat_map
       (fun t =>
          flat_map
            (fun r =>
               if fst r =? Task.id t
               then map (fun _ => t)
                        (filter (fun g => (Tag.id g =? snd r)
                                          && existsb (String.eqb (Tag.name g))
                                                     tag_names)
                                (tbl_tags db))
               else [])
            (tbl_task_tags db))
       rows).

(** The rows of [query] before ordering and pagination. *)
Definition query_rows (completed : option bool) (priority : option Z)
    (tags : option string) (db : DB) : list Task.t :=
  let rows := filter (where_filters completed priority) (tbl_tasks db) in
  match tags with
  | Some s =>
      if PyStr.truthy s then
        let tag_names := tag_names_of s in
        if PyStr.nonempty tag_names then join_tags tag_names rows db else rows
      else rows
  | None => rows
  end.

(** The body of [list_tasks], for parameters that passed the [Query(...)]
    bounds of the signature and that the driver could bind; the request as a
    whole, with both ways to fail, is [list_tasks_request] below. *)
Definition list_tasks (completed : option bool) (priority : option Z)
    (tags : option string) (limit offset : Z) (db : DB)
  : PaginatedTaskResponse :=
  let query := query_rows completed priority tags db in
  let total := Z.of_nat (List.length query) in
  let page :=
    firstn (Z.to_nat limit)
           (skipn (Z.to_nat offset) (order_by_created_at_desc query)) in
  mkPage total limit offset (map (load db) (unique [] page)).

Definition get_task (task_id : Z) (db : DB) : result TaskORM :=
  found <- scalar_one_or_none (select_live task_id db) ;;
  match found with
  | None => Raise HTTP404
  | Some task => Ok (load db task)
  end.

(** [setattr] on a NOT NULL column: a [null] reaches the UPDATE and is
    refused there. *)
Definition set_column {A : Type} (f : field A) (old : A) : result A :=
  match f with
  | Unset => Ok old
  | Given (Some v) => Ok v
  | Given None => Raise IntegrityError
  end.

Definition set_nullable {A : Type} (f : field A) (old : option A) : option A :=
  match f with
  | Unset => old
  | Given v => v
  end.

Definition set_updated_at (r : Task.t) (now : Z) : Task.t :=
  Task.mk (Task.id r) (Task.title r) (Task.description r) (Task.priority r)
          (Task.due_date r) (Task.completed r) (Task.is_deleted r)
          (Task.deleted_at r) (Task.created_at r) now.

(** [db.flush()] for a loaded task: an UPDATE is emitted only when some
    column differs from the loaded row, and [onupdate=func.now()] sets
    [updated_at] in that UPDATE. *)
Definition flush_task (loaded changed : Task.t) (now : Z) (db : DB)
  : result (Task.t * DB) :=
  if Task.eq_dec changed loaded then Ok (loaded, db)
  else
    r <- check_task (set_updated_at changed now) ;;
    Ok (r, update_row r db).

Definition update_task (task_id : Z) (payload : TaskUpdate.t) (now : Z)
    (db : DB) : result (TaskORM * DB) :=
  found <- scalar_one_or_none (select_live task_id db) ;;
  match found with
  | None => Raise HTTP404
  | Some task =>
      db1 <- match TaskUpdate.tags payload with
             | Unset => Ok db
             | Given (Some tag_names) =>
                 '(tags, db') <- _get_or_create_tags tag_names db ;;
                 Ok (assign_tags task_id tags db')
             | Given None => Ok (assign_tags task_id [] db)
             end ;;
      title <- set_column (TaskUpdate.title payload) (Task.title task) ;;
      priority <- set_column (TaskUpdate.priority payload) (Task.priority task) ;;
      due_date <- set_column (TaskUpdate.due_date payload) (Task.due_date task) ;;
      completed <- set_column (TaskUpdate.completed payload) (Task.completed task) ;;
      let description :=
        set_nullable (TaskUpdate.description payload) (Task.description task) in
      '(r, db2) <- flush_task task
                     (Task.mk (Task.id task) title description priority
                              due_date completed (Task.is_deleted task)
                              (Task.deleted_at task) (Task.created_at task)
                              (Task.updated_at task))
                     now db1 ;;
      Ok (load db2 r, db2)
  end.

(** [now] is [datetime.datetime.now(datetime.timezone.utc)] in the handler,
    [db_now] the [func.now()] of the UPDATE. *)
Definition delete_task (task_id : Z) (now db_now : Z) (db : DB)
  : result (unit * DB) :=
  found <- scalar_one_or_none (select_live task_id db) ;;
  match found with
  | None => Raise HTTP404
  | Some task =>
      '(_, db') <- flush_task task
                     (Task.mk (Task.id task) (Task.title task)
                              (Task.description task) (Task.priority task)
                              (Task.due_date task) (Task.completed task)
                              true (Some now) (Task.created_at task)
                              (Task.updated_at task))
                     db_now db ;;
      Ok (tt, db')
  end.

(** The session dependency around a handler, as [override_get_db] in
    tests/conftest.py has it: commit when the handler returns, roll back
    when it raises. *)
Definition get_db {A : Type} (handler : DB -> result (A * DB)) (db : DB)
  : result A * DB :=
  match handler db with
  | Ok (a, db') => (Ok a, db')
  | Raise e => (Raise e, db)
  end.

(** ** Parameters on their way to the database

    A handler above is the request once its integer parameters are bound.
    The driver of the configured store (PostgreSQL) binds a parameter that
    is compared with an [Integer] column as a 32-bit integer, and LIMIT and
    OFFSET as 64-bit ones; a Python [int] outside the range makes the
    statement fail before it runs.  In [get_task], [update_task] and
    [delete_task] the statement that binds [task_id] is the first thing the
    handler does.  In [list_tasks] FastAPI first checks the [Query(...)]
    bounds of the signature; the paginated statement then binds [limit] and
    [offset], and nothing is written before it. *)

Definition int32 (v : Z) : bool := (- 2 ^ 31 <=? v) && (v <? 2 ^ 31).

Definition int64 (v : Z) : bool := (- 2 ^ 63 <=? v) && (v <? 2 ^ 63).

(** Binding [task_id] in [Task.id == task_id]. *)
Definition bind_id (task_id : Z) : result Z :=
  if int32 task_id then Ok task_id else Raise DBAPIError.

(** Binding [offset] in [.offset(offset)]. *)
Definition bind_offset (offset : Z) : result Z :=
  if int64 offset then Ok offset else Raise OverflowError.

(** [priority: Query(None, ge=1, le=5)], [limit: Query(20, ge=1, le=100)],
    [offset: Query(0, ge=0)] *)
Definition query_valid (priority : option Z) (limit offset : Z) : bool :=
  match priority with
  | Some p => (1 <=? p) && (p <=? 5)
  | None => true
  end
  && (1 <=? limit) && (limit <=? 100) && (0 <=? offset).

Definition get_task_request (task_id : Z) (db : DB) : result TaskORM :=
  i <- bind_id task_id ;; get_task i db.

Definition update_task_request (task_id : Z) (payload : TaskUpdate.t)
    (now : Z) (db : DB) : result (TaskORM * DB) :=
  i <- bind_id task_id ;; update_task i payload now db.


Definition list_tasks_request (completed : option bool) (priority : option Z)
    (tags : option string) (limit offset : Z) (db : DB)
  : result PaginatedTaskResponse :=
  if query_valid priority limit offset then
    o <- bind_offset offset ;;
    Ok (list_tasks completed priority tags limit o db)
  else Raise RequestValidationError.

(** ** States of the store *)

(** One committed mutating request. *)
Inductive step (db db' : DB) : Prop :=
| step_create (payload : TaskCreate.t) (now : Z) (r : TaskORM)
    (H : create_task payload now db = Ok (r, db'))
| step_update (task_id : Z) (payload : TaskUpdate.t) (now : Z) (r : TaskORM)
    (H : update_task task_id payload now db = Ok (r, db'))
| step_delete (task_id : Z) (now db_now : Z)
    (H : delete_task task_id now db_now db = Ok (tt, db')).

Inductive reachable : DB -> Prop :=
| reachable_empty : reachable empty_db
| reachable_step (db db' : DB) :
    reachable db -> step db db' -> reachable db'.

(** The constraints the schema declares, which every reachable store
    satisfies. *)
Record wf (db : DB) : Prop := mk_wf {
  wf_task_ids : NoDup (map Task.id (tbl_tasks db));
  wf_tag_ids : NoDup (map Tag.id (tbl_tags db));
  wf_tag_names : NoDup (map Tag.name (tbl_tags db));
  wf_assoc : NoDup (tbl_task_tags db);
  wf_task_seq : forall t, In t (tbl_tasks db) -> Task.id t < tasks_id_seq db;
  wf_tag_seq : forall g, In g (tbl_tags db) -> Tag.id g < tags_id_seq db;
  wf_fk_task : forall r, In r (tbl_task_tags db) ->
                         In (fst r) (map Task.id (tbl_tasks db));
  wf_fk_tag : forall r, In r (tbl_task_tags db) ->
                        In (snd r) (map Tag.id (tbl_tags db));
  wf_titles : forall t, In t (tbl_tasks db) ->
                        Z.of_nat (String.length (Task.title t)) <= 200
}.

(** [is_deleted = false  <=>  deleted_at is null], on every stored task. *)
Definition deleted_inv (db : DB) : Prop :=
  forall t, In t (tbl_tasks db) ->
            (Task.is_deleted t = false <-> Task.deleted_at t = None).

(** ** The listing as the specification words it *)

(** The tag filter that a [tags] query parameter amounts to: none when the
    parameter is missing, empty, or yields no name. *)
Definition requested_tags (tags : option string) : option (list string) :=
  match tags with
  | Some s =>
      if PyStr.truthy s && PyStr.nonempty (tag_names_of s)
      then Some (tag_names_of s) else None
  | None => None
  end.

(** A task's tag set meets the requested set. *)
Definition intersects (names : list string) (task_tags : list Tag.t) : bool :=
  existsb (fun g => existsb (String.eqb (Tag.name g)) names) task_tags.

(** A task matches: it is not deleted, agrees with [completed] and
    [priority] where given, and carries at least one requested tag where a
    tag filter is given. *)
Definition matches (completed : option bool) (priority : option Z)
    (names : option (list string)) (db : DB) (t : Task.t) : bool :=
  negb (Task.is_deleted t)
  && match completed with
     | Some c => Bool.eqb (Task.completed t) c
     | None => true
     end
  && match priority with
     | Some p => Task.priority t =? p
     | None => true
     end
  && match names with
     | Some ns => intersects ns (task_tags_of db (Task.id t))
     | None => true
     end.

Definition matching (completed : option bool) (priority : option Z)
    (names : option (list string)) (db : DB) : list Task.t :=
  filter (matches completed priority names db) (tbl_tasks db).

(** Ids of the tasks on a page. *)
Definition page_ids (p : PaginatedTaskResponse) : list Z :=
  map (fun x => Task.id (row x)) (tasks p).

(** ** Sample stores *)

Definition tomorrow : Z := 20500.

(** One task tagged [original], created at time 10. *)
Definition sample_db : DB :=
  mkDB [Task.mk 1 "Updatable" None 2 tomorrow false false None 10 10]
       [Tag.mk 1 "original"]
       [(1, 1)]
       2 2.

(** The four tasks that tests/test_tasks.py seeds its listings with, created
    at times 10 to 13. *)
Definition commit {A : Type} (handler : DB -> result (A * DB)) (db : DB) : DB :=
  snd (get_db handler db).

Definition seed_a : TaskCreate.t :=
  TaskCreate.mk "Task A" None 5 tomorrow (Some ["work"]).
Definition seed_b : TaskCreate.t :=
  TaskCreate.mk "Task B" None 3 tomorrow (Some ["personal"]).
Definition seed_c : TaskCreate.t :=
  TaskCreate.mk "Task C" None 1 tomorrow (Some ["work"; "urgent"]).
Definition seed_d : TaskCreate.t :=
  TaskCreate.mk "Task D" None 5 tomorrow (Some ["urgent"]).

Definition seed_db1 : DB := Eval vm_compute in commit (create_task seed_a 10) empty_db.
Definition seed_db2 : DB := Eval vm_compute in commit (create_task seed_b 11) seed_db1.
Definition seed_db3 : DB := Eval vm_compute in commit (create_task seed_c 12) seed_db2.
Definition seed_db : DB := Eval vm_compute in commit (create_task seed_d 13) seed_db3.

(** The seeded store after [DELETE /tasks/1] at time 20. *)
Definition seed_deleted_db : DB :=
  Eval vm_compute in commit (delete_task 1 20 20) seed_db.

(** The stored columns a partial update can write agree on two rows. *)
Definition same_columns (a b : Task.t) : Prop :=
  Task.title a = Task.title b /\
  Task.description a = Task.description b /\
  Task.priority a = Task.priority b /\
  Task.due_date a = Task.due_date b /\
  Task.completed a = Task.completed b.

(** A request body with its [tags] entry replaced. *)
Definition with_tags (body : TaskUpdate.t) (v : field (list string))
  : TaskUpdate.t :=
  TaskUpdate.mk (TaskUpdate.title body) (TaskUpdate.description body)
                (TaskUpdate.priority body) (TaskUpdate.due_date body)
                (TaskUpdate.completed body) v.

(** [{"tags": null}] and [{"tags": ["new-tag"]}] *)
Definition null_tags_body : TaskUpdate.t :=
  TaskUpdate.mk Unset Unset Unset Unset Unset (Given None).

Definition only_tags_body : TaskUpdate.t :=
  TaskUpdate.mk Unset Unset Unset Unset Unset (Given (Some ["new-tag"])).

Definition title_body (s : string) : TaskUpdate.t :=
  TaskUpdate.mk (Given (Some s)) Unset Unset Unset Unset Unset.

(** ** app/exceptions.py *)

Module Exceptions.

(** The [detail] of an HTTP exception: a [str], or any other object. *)
Inductive detail : Type :=
| DetailStr (s : string)
| DetailOther.

Record HTTPException : Type := mkExc { status_code : Z; exc_detail : detail }.

(** One item of a pydantic error location: a field name or an index. *)
Inductive loc_item : Type :=
| LocStr (s : string)
| LocInt (i : Z).

(** One entry of [exc.errors()]. *)
Record validation_error : Type := mkErr { loc : list loc_item; msg : string }.

(** A [JSONResponse] whose content is [{"error": ..., "details": {...}}];
    the [details] object keeps its keys in insertion order. *)
Record JSONResponse : Type := mkResp {
  resp_status : Z;
  resp_error : string;
  resp_details : list (string * string)
}.

Definition http_exception_handler (exc : HTTPException) : JSONResponse :=
  mkResp (status_code exc)
         (match exc_detail exc with
          | DetailStr s => s
          | DetailOther => "HTTP Error"
          end)
         [].

(** [str(loc)] *)
Definition str_loc (l : loc_item) : string :=
  match l with
  | LocStr s => s
  | LocInt i => NilZero.string_of_int (Z.to_int i)
  end.

(** [loc != "body"] *)
Definition not_body (l : loc_item) : bool :=
  match l with
  | LocStr s => negb (String.eqb s "body")
  | LocInt _ => true
  end.

(** [".".join(str(loc) for loc in error["loc"] if loc != "body")] *)
Definition field_of (e : validation_error) : string :=
  String.concat "." (map str_loc (filter not_body (loc e))).

(** [d[k] = v] on a dict: a present key keeps its place and takes the new
    value, a new key goes last. *)
Fixpoint dict_set (k v : string) (d : list (string * string))
  : list (string * string) :=
  match d with
  | [] => [(k, v)]
  | (k', v') :: r =>
      if String.eqb k' k then (k', v) :: r else (k', v') :: dict_set k v r
  end.

(** [d.get(k)] *)
Fixpoint dict_get (k : string) (d : list (string * string)) : option string :=
  match d with
  | [] => None
  | (k', v') :: r => if String.eqb k' k then Some v' else dict_get k r
  end.

Definition validation_exception_handler (errors : list validation_error)
  : JSONResponse :=
  mkResp 422 "Validation Failed"
         (fold_left (fun details e => dict_set (field_of e) (msg e) details)
                    errors []).

End Exceptions.

(** ** Vocabulary of the further properties *)

(** A tag name as the validators and the [tags] query leave it: trimmed,
    lower case, not empty. *)
Definition normal_name (n : string) : Prop :=
  PyStr.strip n = n /\ PyStr.lower n = n /\ n <> EmptyString.

(** A string made of blanks only. *)
Definition blank (s : string) : Prop := PyStr.strip s = EmptyString.

(** Some stored task has this id and is not deleted. *)
Definition live (db : DB) (task_id : Z) : Prop :=
  exists t, In t (tbl_tasks db) /\ Task.id t = task_id /\
            Task.is_deleted t = false.

(** A priority filter that passes its [Query] bounds. *)
Definition valid_priority (priority : option Z) : Prop :=
  match priority with
  | Some p => 1 <= p <= 5
  | None => True
  end.

(** Two lists hold the same elements. *)
Definition same_elements {A : Type} (l1 l2 : list A) : Prop :=
  forall x, In x l1 <-> In x l2.

(** Newest first. *)
Definition newest_first (a b : Task.t) : Prop :=
  Task.created_at b <= Task.created_at a.

(** The seeded store after task 3 took the tags [home] and [work]. *)
Definition retag_body : TaskUpdate.t :=
  TaskUpdate.mk Unset Unset Unset Unset Unset (Given (Some ["home"; "work"])).

Definition seed_retagged_db : DB :=
  Eval vm_compute in commit (update_task 3 retag_body 30) seed_db.

(** * Proofs *)

(** ** Strings *)

Section StringFacts.





End StringFacts.

(** Split a conjunction into its conjuncts, and nothing else. *)
Ltac splits := repeat match goal with |- _ /\ _ => split end.

(** ** Lists *)

Section ListFacts.

Context {A : Type}.

Lemma filter_all_false (f : A -> bool) (l : list A) :
  (forall x, In x l -> f x = false) -> filter f l = [].
Proof.
  induction l as [|a l IH]; simpl; intros H; [reflexivity|].
  rewrite (H a (or_introl eq_refl)). apply IH. intros; apply H; now right.
Qed.

Lemma filter_all_true (f : A -> bool) (l : list A) :
  (forall x, In x l -> f x = true) -> filter f l = l.
Proof.
  induction l as [|a l IH]; simpl; intros H; [reflexivity|].
  rewrite (H a (or_introl eq_refl)). f_equal. apply IH.
  intros; apply H; now right.
Qed.

(** A key that is unique in a list selects at most the one row carrying
    it. *)
Lemma filter_unique_key {K : Type} (key : A -> K) (f : A -> bool)
    (l : list A) (x : A) :
  NoDup (map key l) -> In x l -> f x = true ->
  (forall y, f y = true -> key y = key x) ->
  filter f l = [x].
Proof.
  induction l as [|a l IH]; simpl; intros Hnd Hin Hfx Hkey; [contradiction|].
  inversion Hnd as [|? ? Hnotin Hnd']; subst.
  destruct Hin as [->|Hin].
  - rewrite Hfx. f_equal. apply filter_all_false. intros y Hy.
    destruct (f y) eqn:E; [|reflexivity].
    exfalso. apply Hnotin. rewrite <- (Hkey y E). now apply in_map.
  - destruct (f a) eqn:E.
    + exfalso. apply Hnotin. rewrite (Hkey a E). now apply in_map.
    + now apply IH.
Qed.

Lemma NoDup_map_In_eq {K : Type} (key : A -> K) (l : list A) (x y : A) :
  NoDup (map key l) -> In x l -> In y l -> key x = key y -> x = y.
Proof.
  induction l as [|a l IH]; simpl; intros Hnd Hx Hy E; [contradiction|].
  inversion Hnd as [|? ? Hnotin Hnd']; subst.
  destruct Hx as [->|Hx], Hy as [->|Hy]; auto.
  - exfalso. apply Hnotin. rewrite E. now apply in_map.
  - exfalso. apply Hnotin. rewrite <- E. now apply in_map.
Qed.

Lemma NoDup_filter_keep (f : A -> bool) (l : list A) :
  NoDup l -> NoDup (filter f l).
Proof.
  induction l as [|a l IH]; simpl; intros H; [constructor|].
  inversion H as [|? ? Hnotin Hnd]; subst.
  destruct (f a); [constructor|]; auto.
  intros Hin. apply filter_In in Hin. tauto.
Qed.

Lemma skipn_nth_error (l : list A) (n : nat) (x : A) :
  nth_error l n = Some x -> exists r, skipn n l = x :: r.
Proof.
  revert l; induction n as [|n IH]; intros [|a l]; simpl; try discriminate.
  - intros [= ->]. now exists l.
  - apply IH.
Qed.

Lemma In_firstn (l : list A) (n : nat) (x : A) :
  In x (firstn n l) -> In x l.
Proof.
  revert l; induction n as [|n IH]; intros [|a l]; simpl; try tauto.
  intros [->|H]; [now left | right; now apply IH].
Qed.

Lemma In_skipn (l : list A) (n : nat) (x : A) :
  In x (skipn n l) -> In x l.
Proof.
  revert l; induction n as [|n IH]; intros [|a l]; simpl; try tauto.
  intros H. right. now apply IH.
Qed.

Lemma NoDup_firstn (l : list A) (n : nat) : NoDup l -> NoDup (firstn n l).
Proof.
  revert l; induction n as [|n IH]; intros [|a l] H; simpl; try constructor.
  - inversion H; subst. intros Hin. apply In_firstn in Hin. contradiction.
  - inversion H; subst. now apply IH.
Qed.

Lemma NoDup_skipn (l : list A) (n : nat) : NoDup l -> NoDup (skipn n l).
Proof.
  revert l; induction n as [|n IH]; intros [|a l] H; simpl; auto.
  inversion H; subst. now apply IH.
Qed.

End ListFacts.

(** ** The query of [list_tasks] *)

Section QueryFacts.

Lemma insert_desc_perm (t : Task.t) (l : list Task.t) :
  Permutation (insert_desc t l) (t :: l).
Proof.
  induction l as [|x r IH]; simpl; [apply Permutation_refl|].
  destruct (Task.created_at x <=? Task.created_at t).
  - apply Permutation_refl.
  - eapply perm_trans; [apply perm_skip, IH | apply perm_swap].
Qed.

Lemma order_by_perm (l : list Task.t) :
  Permutation (order_by_created_at_desc l) l.
Proof.
  unfold order_by_created_at_desc.
  induction l as [|x r IH]; simpl; [constructor|].
  eapply perm_trans; [apply insert_desc_perm | now apply perm_skip].
Qed.

Lemma order_by_length (l : list Task.t) :
  List.length (order_by_created_at_desc l) = List.length l.
Proof. apply Permutation_length, order_by_perm. Qed.

Lemma order_by_In (l : list Task.t) (t : Task.t) :
  In t (order_by_created_at_desc l) <-> In t l.
Proof.
  split; apply Permutation_in;
    [apply order_by_perm | apply Permutation_sym, order_by_perm].
Qed.

Lemma unique_fresh (seen : list Z) (l : list Task.t) :
  NoDup (map Task.id l) ->
  (forall x, In x l -> ~ In (Task.id x) seen) ->
  unique seen l = l.
Proof.
  revert seen; induction l as [|x r IH]; simpl; intros seen Hnd Hseen;
    [reflexivity|].
  inversion Hnd as [|? ? Hnotin Hnd']; subst.
  destruct (existsb (Z.eqb (Task.id x)) seen) eqn:E.
  - apply existsb_exists in E as (i & Hi & Heq).
    apply Z.eqb_eq in Heq; subst i.
    exfalso. apply (Hseen x); auto.
  - f_equal. apply IH; [assumption|].
    intros y Hy [Heq|Hin].
    + apply Hnotin. rewrite Heq. now apply in_map.
    + apply (Hseen y); auto.
Qed.

Lemma unique_In (seen : list Z) (l : list Task.t) (x : Task.t) :
  In x (unique seen l) -> In x l.
Proof.
  revert seen; induction l as [|a r IH]; simpl; intros seen H; [assumption|].
  destruct (existsb (Z.eqb (Task.id a)) seen).
  - right. now apply IH in H.
  - destruct H as [->|H]; [now left | right; now apply IH in H].
Qed.

Lemma intersects_spec (ns : list string) (gs : list Tag.t) :
  intersects ns gs = true <->
  exists g, In g gs /\ In (Tag.name g) ns.
Proof.
  unfold intersects. rewrite existsb_exists. split.
  - intros (g & Hg & Hn). exists g. split; [assumption|].
    apply existsb_exists in Hn as (n & Hn & E).
    apply String.eqb_eq in E. now subst.
  - intros (g & Hg & Hn). exists g. split; [assumption|].
    apply existsb_exists. exists (Tag.name g). split; [assumption|].
    apply String.eqb_refl.
Qed.

Lemma task_tags_of_In (db : DB) (task_id : Z) (g : Tag.t) :
  In g (task_tags_of db task_id) <->
  In g (tbl_tags db) /\ In (task_id, Tag.id g) (tbl_task_tags db).
Proof.
  unfold task_tags_of. rewrite in_flat_map. split.
  - intros ([a b] & Hr & Hg). simpl in Hg.
    destruct (a =? task_id) eqn:E; [|contradiction].
    apply Z.eqb_eq in E. apply filter_In in Hg as [Hg Hid].
    apply Z.eqb_eq in Hid. subst. auto.
  - intros [Hg Hr]. exists (task_id, Tag.id g). split; [assumption|].
    simpl. rewrite Z.eqb_refl. apply filter_In. split; [assumption|].
    apply Z.eqb_refl.
Qed.

Lemma join_tags_In (ns : list string) (rows : list Task.t) (db : DB)
    (t : Task.t) :
  In t (join_tags ns rows db) <->
  In t rows /\ intersects ns (task_tags_of db (Task.id t)) = true.
Proof.
  unfold join_tags. rewrite nodup_In, in_flat_map, intersects_spec. split.
  - intros (t' & Ht' & H). apply in_flat_map in H as ([a b] & Hr & H).
    simpl in H. destruct (a =? Task.id t') eqn:E; [|contradiction].
    apply Z.eqb_eq in E. apply in_map_iff in H as (g & <- & Hg).
    apply filter_In in Hg as [Hg Hc]. apply andb_prop in Hc as [Hid Hn].
    apply Z.eqb_eq in Hid. split; [assumption|].
    exists g. split.
    + apply task_tags_of_In. subst. auto.
    + apply existsb_exists in Hn as (n & Hn & En).
      apply String.eqb_eq in En. now subst.
  - intros [Ht (g & Hg & Hn)]. apply task_tags_of_In in Hg as [Hg Hr].
    exists t. split; [assumption|]. apply in_flat_map.
    exists (Task.id t, Tag.id g). split; [assumption|].
    simpl. rewrite Z.eqb_refl. apply in_map_iff. exists g.
    split; [reflexivity|]. apply filter_In. split; [assumption|].
    rewrite Z.eqb_refl. simpl. apply existsb_exists.
    exists (Tag.name g). split; [assumption | apply String.eqb_refl].
Qed.

Lemma matches_where (c : option bool) (p : option Z)
    (names : option (list string)) (db : DB) (t : Task.t) :
  matches c p names db t =
  where_filters c p t
  && match names with
     | Some ns => intersects ns (task_tags_of db (Task.id t))
     | None => true
     end.
Proof. reflexivity. Qed.

(** The rows the query selects are the matching tasks. *)
Lemma query_rows_In (c : option bool) (p : option Z) (tg : option string)
    (db : DB) (t : Task.t) :
  In t (query_rows c p tg db) <->
  In t (matching c p (requested_tags tg) db).
Proof.
  unfold query_rows, matching, requested_tags.
  destruct tg as [s|].
  - destruct (PyStr.truthy s); simpl.
    + destruct (PyStr.nonempty (tag_names_of s)).
      * rewrite join_tags_In, !filter_In, matches_where.
        rewrite andb_true_iff. tauto.
      * rewrite !filter_In, matches_where, andb_true_r. tauto.
    + rewrite !filter_In, matches_where, andb_true_r. tauto.
  - rewrite !filter_In, matches_where, andb_true_r. tauto.
Qed.



Lemma query_rows_live (c : option bool) (p : option Z) (tg : option string)
    (db : DB) (t : Task.t) :
  In t (query_rows c p tg db) ->
  In t (tbl_tasks db) /\ Task.is_deleted t = false.
Proof.
  intros H. apply query_rows_In in H. apply filter_In in H as [Hin Hm].
  split; [assumption|]. unfold matches in Hm.
  apply andb_prop in Hm as [Hm _]. apply andb_prop in Hm as [Hm _].
  apply andb_prop in Hm as [Hm _]. now apply negb_true_iff in Hm.
Qed.

(** What a page holds, row by row. *)
Lemma page_rows (c : option bool) (p : option Z) (tg : option string)
    (l o : Z) (db : DB) (x : TaskORM) :
  In x (tasks (list_tasks c p tg l o db)) ->
  In (row x) (query_rows c p tg db) /\
  tags x = task_tags_of db (Task.id (row x)).
Proof.
  unfold list_tasks; simpl. intros H.
  apply in_map_iff in H as (t & <- & Ht). simpl. split; [|reflexivity].
  apply unique_In, In_firstn, In_skipn in Ht.
  exact (proj1 (order_by_In _ _) Ht).
Qed.

Lemma page_window (c : option bool) (p : option Z) (tg : option string)
    (l o : Z) (db : DB) :
  NoDup (map Task.id (tbl_tasks db)) ->
  map row (tasks (list_tasks c p tg l o db)) =
  firstn (Z.to_nat l)
         (skipn (Z.to_nat o)
                (order_by_created_at_desc (query_rows c p tg db))).
Proof.
  intros Hnd. unfold list_tasks; simpl.
  rewrite map_map; simpl. rewrite map_id.
  apply unique_fresh; [|intros ? _ []].
  assert (Hq : NoDup (map Task.id (order_by_created_at_desc
                                      (query_rows c p tg db)))).
  { eapply Permutation_NoDup.
    - apply Permutation_map, Permutation_sym, order_by_perm.
    - clear l o. unfold query_rows.
      assert (Hsub : forall f, NoDup (map Task.id (filter f (tbl_tasks db)))).
      { intros f. induction (tbl_tasks db) as [|a r IH]; simpl; [constructor|].
        inversion Hnd as [|? ? Hnotin Hnd']; subst.
        destruct (f a); simpl; [constructor|]; auto.
        intros Hin. apply Hnotin. apply in_map_iff in Hin as (y & E & Hy).
        apply filter_In in Hy as [Hy _]. rewrite <- E. now apply in_map. }
      assert (Hjoin : forall ns,
                 NoDup (map Task.id
                          (join_tags ns
                             (filter (where_filters c p) (tbl_tasks db)) db))).
      { intros ns.
        set (J := join_tags ns _ db).
        assert (HJ : NoDup J) by apply NoDup_nodup.
        assert (Hin : forall t, In t J -> In t (tbl_tasks db)).
        { intros t Ht. apply join_tags_In in Ht as [Ht _].
          now apply filter_In in Ht as [Ht _]. }
        clearbody J. induction J as [|a r IH]; simpl; [constructor|].
        inversion HJ as [|? ? Hnotin HJ']; subst.
        constructor; [|apply IH; auto; intros; apply Hin; now right].
        intros Hid. apply in_map_iff in Hid as (y & E & Hy).
        apply Hnotin.
        rewrite <- (NoDup_map_In_eq Task.id (tbl_tasks db) y a); auto.
        - apply Hin; now right.
        - apply Hin; now left. }
      destruct tg as [s|]; [|apply Hsub].
      destruct (PyStr.truthy s); [|apply Hsub].
      destruct (PyStr.nonempty (tag_names_of s)); [apply Hjoin | apply Hsub]. }
  revert Hq. generalize (order_by_created_at_desc (query_rows c p tg db)).
  intros L HL.
  rewrite <- firstn_map, <- skipn_map.
  now apply NoDup_firstn, NoDup_skipn.
Qed.

End QueryFacts.

(** ** The storage layer *)

Section StorageFacts.

Lemma scalar_some {A : Type} (rows : list A) (x : A) :
  scalar_one_or_none rows = Ok (Some x) -> rows = [x].
Proof.
  destruct rows as [|a [|b r]]; simpl; try discriminate. now intros [= ->].
Qed.

Lemma scalar_none {A : Type} (rows : list A) :
  scalar_one_or_none rows = Ok None -> rows = [].
Proof. destruct rows as [|a [|b r]]; simpl; try discriminate; auto. Qed.

Lemma select_live_In (db : DB) (i : Z) (t : Task.t) :
  In t (select_live i db) <->
  In t (tbl_tasks db) /\ Task.id t = i /\ Task.is_deleted t = false.
Proof.
  unfold select_live. rewrite filter_In, andb_true_iff, Z.eqb_eq,
    negb_true_iff. tauto.
Qed.

Lemma select_live_found (db : DB) (i : Z) (t : Task.t) :
  scalar_one_or_none (select_live i db) = Ok (Some t) ->
  In t (tbl_tasks db) /\ Task.id t = i /\ Task.is_deleted t = false.
Proof.
  intros H. apply scalar_some in H. apply select_live_In.
  rewrite H. now left.
Qed.

Lemma select_live_one (db : DB) (t : Task.t) :
  NoDup (map Task.id (tbl_tasks db)) ->
  In t (tbl_tasks db) -> Task.is_deleted t = false ->
  select_live (Task.id t) db = [t].
Proof.
  intros Hnd Hin Hlive. unfold select_live.
  apply (filter_unique_key Task.id); auto.
  - now rewrite Z.eqb_refl, Hlive.
  - intros y Hy. apply andb_prop in Hy as [Hy _]. now apply Z.eqb_eq.
Qed.

Lemma select_live_none (db : DB) (i : Z) :
  (forall t, In t (tbl_tasks db) -> Task.id t = i -> Task.is_deleted t = true) ->
  select_live i db = [].
Proof.
  intros H. unfold select_live. apply filter_all_false. intros t Ht.
  destruct (Task.id t =? i) eqn:E; [|reflexivity].
  apply Z.eqb_eq in E. now rewrite (H t Ht E).
Qed.

(** With unique ids the lookup by id never finds two rows. *)
Lemma select_live_cases (db : DB) (i : Z) :
  NoDup (map Task.id (tbl_tasks db)) ->
  (exists t, select_live i db = [t]) \/ select_live i db = [].
Proof.
  intros Hnd. destruct (select_live i db) as [|t r] eqn:E; [now right|].
  left. exists t.
  assert (Ht : In t (select_live i db)) by (rewrite E; now left).
  apply select_live_In in Ht as (Hin & Hid & Hlive). subst i.
  rewrite (select_live_one db t Hnd Hin Hlive) in E. congruence.
Qed.

Lemma check_task_ok (r r' : Task.t) :
  check_task r = Ok r' ->
  r' = r /\ Z.of_nat (String.length (Task.title r)) <= 200.
Proof.
  unfold check_task.
  destruct (200 <? Z.of_nat (String.length (Task.title r))) eqn:E;
    [discriminate|].
  intros [= <-]. apply Z.ltb_ge in E. auto.
Qed.

Lemma check_task_pass (r : Task.t) :
  Z.of_nat (String.length (Task.title r)) <= 200 -> check_task r = Ok r.
Proof.
  intros H. unfold check_task.
  destruct (200 <? Z.of_nat (String.length (Task.title r))) eqn:E;
    [apply Z.ltb_lt in E; lia | reflexivity].
Qed.

Lemma flush_task_inv (loaded changed : Task.t) (now : Z) (db : DB)
    (r : Task.t) (db' : DB) :
  flush_task loaded changed now db = Ok (r, db') ->
  (changed = loaded /\ r = loaded /\ db' = db) \/
  (changed <> loaded /\ r = set_updated_at changed now /\
   db' = update_row r db /\
   Z.of_nat (String.length (Task.title changed)) <= 200).
Proof.
  unfold flush_task. destruct (Task.eq_dec changed loaded) as [E|E].
  - intros [= <- <-]. now left.
  - destruct (check_task (set_updated_at changed now)) as [r0|e] eqn:C;
      simpl; [|discriminate].
    intros [= <- <-]. apply check_task_ok in C as [-> Hlen]. right. auto.
Qed.

Lemma update_row_ids (r : Task.t) (db : DB) :
  map Task.id (tbl_tasks (update_row r db)) = map Task.id (tbl_tasks db).
Proof.
  unfold update_row; simpl. rewrite map_map. apply map_ext. intros t.
  destruct (Task.id t =? Task.id r) eqn:E; [|reflexivity].
  apply Z.eqb_eq in E. congruence.
Qed.

Lemma update_row_In (r : Task.t) (db : DB) (x : Task.t) :
  In x (tbl_tasks (update_row r db)) ->
  x = r \/ (In x (tbl_tasks db) /\ Task.id x <> Task.id r).
Proof.
  unfold update_row; simpl. intros H.
  apply in_map_iff in H as (t & E & Ht).
  destruct (Task.id t =? Task.id r) eqn:Eid.
  - left. congruence.
  - right. subst x. split; [assumption|]. now apply Z.eqb_neq.
Qed.

Lemma update_row_has (r old : Task.t) (db : DB) :
  In old (tbl_tasks db) -> Task.id old = Task.id r ->
  In r (tbl_tasks (update_row r db)).
Proof.
  intros Hin Hid. unfold update_row; simpl. apply in_map_iff.
  exists old. split; [|assumption]. now rewrite Hid, Z.eqb_refl.
Qed.

Lemma update_row_other (r : Task.t) (db : DB) (x : Task.t) :
  In x (tbl_tasks db) -> Task.id x <> Task.id r ->
  In x (tbl_tasks (update_row r db)).
Proof.
  intros Hin Hid. unfold update_row; simpl. apply in_map_iff.
  exists x. split; [|assumption].
  apply Z.eqb_neq in Hid. now rewrite Hid.
Qed.

Lemma update_row_tags (r : Task.t) (db : DB) (i : Z) :
  task_tags_of (update_row r db) i = task_tags_of db i.
Proof. reflexivity. Qed.

Lemma wf_update_row (r old : Task.t) (db : DB) :
  wf db -> In old (tbl_tasks db) -> Task.id old = Task.id r ->
  Z.of_nat (String.length (Task.title r)) <= 200 ->
  wf (update_row r db).
Proof.
  intros W Hin Hid Hlen.
  assert (Hseq : forall t, In t (tbl_tasks (update_row r db)) ->
                           Task.id t < tasks_id_seq db).
  { intros t Ht. apply update_row_In in Ht as [->|[Ht _]].
    - rewrite <- Hid. now apply (wf_task_seq db W).
    - now apply (wf_task_seq db W). }
  constructor; try rewrite update_row_ids; try apply W; try exact Hseq.
  intros t Ht. apply update_row_In in Ht as [->|[Ht _]];
    [assumption | now apply (wf_titles db W)].
Qed.

Lemma insert_tag_ok (name : string) (db : DB) (g : Tag.t) (db' : DB) :
  insert_tag name db = Ok (g, db') ->
  g = Tag.mk (tags_id_seq db) name /\
  db' = mkDB (tbl_tasks db) (tbl_tags db ++ [g]) (tbl_task_tags db)
             (tasks_id_seq db) (tags_id_seq db + 1) /\
  ~ In name (map Tag.name (tbl_tags db)).
Proof.
  unfold insert_tag.
  destruct (100 <? Z.of_nat (String.length name)); [discriminate|].
  destruct (existsb (fun g0 => (Tag.name g0 =? name)%string) (tbl_tags db))
    eqn:E; [discriminate|].
  intros [= <- <-]. repeat split.
  intros Hin. apply in_map_iff in Hin as (g0 & Hn & Hg0).
  assert (X : existsb (fun g1 => (Tag.name g1 =? name)%string) (tbl_tags db)
              = true).
  { apply existsb_exists. exists g0. split; [assumption|].
    now apply String.eqb_eq. }
  congruence.
Qed.

Lemma wf_insert_tag (name : string) (db : DB) (g : Tag.t) (db' : DB) :
  wf db -> insert_tag name db = Ok (g, db') -> wf db'.
Proof.
  intros W H. apply insert_tag_ok in H as (-> & -> & Hfresh).
  constructor; simpl; try apply W.
  - rewrite map_app; simpl. apply NoDup_app; [apply W | repeat constructor; auto |].
    intros i Hi [<-|[]]. apply in_map_iff in Hi as (g0 & E & Hg0).
    apply (wf_tag_seq db W) in Hg0. lia.
  - rewrite map_app; simpl. apply NoDup_app; [apply W | repeat constructor; auto |].
    intros n Hn [<-|[]]. contradiction.
  - intros g0 Hg0. apply in_app_iff in Hg0 as [Hg0|[<-|[]]]; simpl.
    + apply (wf_tag_seq db W) in Hg0. lia.
    + lia.
  - intros r Hr. rewrite map_app. apply in_app_iff. left.
    now apply (wf_fk_tag db W).
Qed.

(** Looking a name up among unique names. *)
Lemma lookup_name_found (db : DB) (g : Tag.t) :
  NoDup (map Tag.name (tbl_tags db)) -> In g (tbl_tags db) ->
  filter (fun g0 => (Tag.name g0 =? Tag.name g)%string) (tbl_tags db) = [g].
Proof.
  intros Hnd Hin. apply (filter_unique_key Tag.name); auto.
  - apply String.eqb_refl.
  - intros y Hy. now apply String.eqb_eq.
Qed.

Lemma lookup_name_cases (db : DB) (name : string) :
  NoDup (map Tag.name (tbl_tags db)) ->
  (exists g, In g (tbl_tags db) /\ Tag.name g = name /\
             filter (fun g0 => (Tag.name g0 =? name)%string) (tbl_tags db) = [g])
  \/ (~ In name (map Tag.name (tbl_tags db)) /\
      filter (fun g0 => (Tag.name g0 =? name)%string) (tbl_tags db) = []).
Proof.
  intros Hnd.
  destruct (in_dec string_dec name (map Tag.name (tbl_tags db))) as [Hin|Hout].
  - left. apply in_map_iff in Hin as (g & E & Hg). exists g.
    repeat split; auto. subst name. now apply lookup_name_found.
  - right. split; [assumption|]. apply filter_all_false. intros g Hg.
    apply String.eqb_neq. intros E. apply Hout. rewrite <- E. now apply in_map.
Qed.

(** Resolving names writes to the [tags] table only. *)
Lemma get_or_create_frame (names : list string) :
  forall (db : DB) (gs : list Tag.t) (db' : DB),
    _get_or_create_tags names db = Ok (gs, db') ->
    tbl_tasks db' = tbl_tasks db /\ tbl_task_tags db' = tbl_task_tags db /\
    tasks_id_seq db' = tasks_id_seq db.
Proof.
  induction names as [|name rest IH]; simpl; intros db gs db' H.
  - injection H as _ <-. auto.
  - destruct (scalar_one_or_none _) as [found|e]; simpl in H; [|discriminate].
    destruct (match found with Some tag => Ok (tag, db)
                          | None => insert_tag name db end)
      as [[g db1]|e] eqn:F; simpl in H; [|discriminate].
    destruct (_get_or_create_tags rest db1) as [[gs' db2]|e] eqn:R;
      simpl in H; [|discriminate].
    injection H as _ <-. destruct (IH _ _ _ R) as (T & A & S).
    rewrite T, A, S. destruct found; [injection F as _ <-; auto|].
    apply insert_tag_ok in F as (_ & -> & _). auto.
Qed.

Lemma get_or_create_spec (names : list string) :
  forall (db : DB) (gs : list Tag.t) (db' : DB),
    _get_or_create_tags names db = Ok (gs, db') -> wf db ->
    wf db' /\
    tbl_tasks db' = tbl_tasks db /\
    tbl_task_tags db' = tbl_task_tags db /\
    tasks_id_seq db' = tasks_id_seq db /\
    (exists new, tbl_tags db' = tbl_tags db ++ new) /\
    (forall g, In g gs -> In g (tbl_tags db')) /\
    map Tag.name gs = names.
Proof.
  induction names as [|name rest IH]; simpl; intros db gs db' H W.
  - injection H as <- <-. splits; auto.
    + exists []. now rewrite app_nil_r.
    + intros g [].
  - destruct (scalar_one_or_none _) as [found|e] eqn:L; simpl in H;
      [|discriminate].
    assert (Hfirst : exists g db1,
               match found with
               | Some tag => Ok (tag, db)
               | None => insert_tag name db
               end = Ok (g, db1)).
    { destruct (match found with Some tag => Ok (tag, db)
                            | None => insert_tag name db end)
        as [[g db1]|e]; [eauto | discriminate]. }
    destruct Hfirst as (g & db1 & Hf). rewrite Hf in H. simpl in H.
    destruct (_get_or_create_tags rest db1) as [[gs' db2]|e] eqn:R;
      simpl in H; [|discriminate].
    injection H as <- <-.
    assert (X : wf db1 /\ tbl_tasks db1 = tbl_tasks db /\
                tbl_task_tags db1 = tbl_task_tags db /\
                tasks_id_seq db1 = tasks_id_seq db /\
                (exists new, tbl_tags db1 = tbl_tags db ++ new) /\
                In g (tbl_tags db1) /\ Tag.name g = name).
    { destruct found as [tag|].
      - injection Hf as <- <-. apply scalar_some in L.
        assert (Hin : In tag (filter (fun g0 => (Tag.name g0 =? name)%string)
                                     (tbl_tags db)))
          by (rewrite L; now left).
        apply filter_In in Hin as [Hin Hn]. apply String.eqb_eq in Hn.
        splits; auto. exists []. now rewrite app_nil_r.
      - pose proof (wf_insert_tag _ _ _ _ W Hf) as W1.
        apply insert_tag_ok in Hf as (-> & -> & _). simpl.
        splits; auto.
        + now exists [Tag.mk (tags_id_seq db) name].
        + apply in_app_iff. right. now left. }
    destruct X as (W1 & T1 & A1 & S1 & (new1 & N1) & Hg & Hname).
    destruct (IH db1 gs' db2 R W1) as (W2 & T2 & A2 & S2 & (new2 & N2) & Hgs & Hnames).
    splits; try congruence.
    + exists (new1 ++ new2). rewrite N2, N1. now rewrite app_assoc.
    + intros g0 [<-|Hg0]; [|now apply Hgs].
      rewrite N2. apply in_app_iff. now left.
    + simpl. congruence.
Qed.

Lemma existsb_eqb_In (i : Z) (l : list Z) :
  existsb (Z.eqb i) l = true <-> In i l.
Proof.
  rewrite existsb_exists. split.
  - intros (j & Hj & E). apply Z.eqb_eq in E. now subst.
  - intros H. exists i. split; [assumption | apply Z.eqb_refl].
Qed.

(** The association rows after [task.tags = new_tags] is flushed: the rows
    of the other tasks, and one row per tag of the new collection. *)
Lemma assign_tags_rows (task_id : Z) (new_tags : list Tag.t) (db : DB)
    (r : Z * Z) :
  In r (tbl_task_tags (assign_tags task_id new_tags db)) <->
  (fst r <> task_id /\ In r (tbl_task_tags db)) \/
  (fst r = task_id /\ In (snd r) (map Tag.id new_tags)).
Proof.
  unfold assign_tags; simpl.
  rewrite in_app_iff, filter_In, in_map_iff, orb_true_iff, negb_true_iff,
    Z.eqb_neq, existsb_eqb_In, nodup_In.
  split.
  - intros [[Hr [Hne|Hin]]|(i & <- & Hi)].
    + now left.
    + destruct (Z.eq_dec (fst r) task_id); [right | left]; auto.
    + apply filter_In in Hi as [Hi _]. apply nodup_In in Hi. now right.
  - intros [[Hne Hr]|[He Hin]]; [left; auto|].
    destruct (existsb (Z.eqb (snd r))
                (map snd (filter (fun r0 => fst r0 =? task_id)
                                 (tbl_task_tags db)))) eqn:E.
    + left. split; [|now right].
      apply existsb_eqb_In, in_map_iff in E as ([a b] & Hs & Hr0).
      apply filter_In in Hr0 as [Hr0 Hf]. simpl in *.
      apply Z.eqb_eq in Hf. destruct r as [x y]; simpl in *. congruence.
    + right. exists (snd r). split.
      * destruct r; simpl in *; congruence.
      * apply filter_In. split; [now apply nodup_In|]. now rewrite E.
Qed.

Lemma assign_tags_NoDup (task_id : Z) (new_tags : list Tag.t) (db : DB) :
  NoDup (tbl_task_tags db) ->
  NoDup (tbl_task_tags (assign_tags task_id new_tags db)).
Proof.
  intros Hnd. unfold assign_tags; simpl. apply NoDup_app.
  - now apply NoDup_filter_keep.
  - set (added := filter _ (nodup Z.eq_dec (map Tag.id new_tags))).
    assert (Ha : NoDup added) by apply NoDup_filter_keep, NoDup_nodup.
    clearbody added. induction Ha as [|i l Hi _ IH]; simpl; constructor; auto.
    intros Hin. apply in_map_iff in Hin as (j & [= ->] & Hj). contradiction.
  - intros [a b] Hk Ha. apply filter_In in Hk as [Hr _].
    apply in_map_iff in Ha as (i & [= <- <-] & Hi).
    apply filter_In in Hi as [_ Hi]. apply negb_true_iff in Hi.
    assert (X : existsb (Z.eqb i)
                  (map snd (filter (fun r0 => fst r0 =? task_id)
                                   (tbl_task_tags db))) = true).
    { apply existsb_eqb_In, in_map_iff. exists (task_id, i). split; [reflexivity|].
      apply filter_In. split; [assumption|]. simpl. apply Z.eqb_refl. }
    congruence.
Qed.

Lemma wf_assign_tags (task_id : Z) (new_tags : list Tag.t) (db : DB) :
  wf db -> In task_id (map Task.id (tbl_tasks db)) ->
  (forall g, In g new_tags -> In g (tbl_tags db)) ->
  wf (assign_tags task_id new_tags db).
Proof.
  intros W Hid Hnew.
  constructor; try apply W.
  - apply assign_tags_NoDup, W.
  - intros r Hr. apply assign_tags_rows in Hr as [[_ Hr]|[-> _]];
      [now apply (wf_fk_task db W) | exact Hid].
  - intros r Hr. apply assign_tags_rows in Hr as [[_ Hr]|[_ Hr]];
      [now apply (wf_fk_tag db W)|].
    apply in_map_iff in Hr as (g & <- & Hg). apply in_map. now apply Hnew.
Qed.

(** The collection a task carries after the assignment. *)
Lemma assign_tags_loaded (task_id : Z) (new_tags : list Tag.t) (db : DB)
    (g : Tag.t) :
  In g (task_tags_of (assign_tags task_id new_tags db) task_id) <->
  In g (tbl_tags db) /\ In (Tag.id g) (map Tag.id new_tags).
Proof.
  rewrite task_tags_of_In, assign_tags_rows. simpl. unfold assign_tags; simpl.
  intuition congruence.
Qed.

Lemma assign_tags_nil (task_id : Z) (db : DB) :
  task_tags_of (assign_tags task_id [] db) task_id = [].
Proof.
  destruct (task_tags_of (assign_tags task_id [] db) task_id) as [|g l] eqn:E;
    [reflexivity|].
  assert (H : In g (task_tags_of (assign_tags task_id [] db) task_id))
    by (rewrite E; now left).
  apply assign_tags_loaded in H as [_ []].
Qed.

Lemma task_tags_of_NoDup (db : DB) (i : Z) :
  NoDup (tbl_task_tags db) -> NoDup (map Tag.id (tbl_tags db)) ->
  NoDup (task_tags_of db i).
Proof.
  intros Hrows Htags. unfold task_tags_of.
  induction Hrows as [|r rs Hr _ IH]; simpl; [constructor|].
  apply NoDup_app; [| exact IH |].
  - destruct (fst r =? i); [|constructor].
    apply NoDup_filter_keep. now apply NoDup_map_inv in Htags.
  - intros g Hg Hin. destruct (fst r =? i) eqn:E; [|contradiction].
    apply Z.eqb_eq in E. apply filter_In in Hg as [_ Hg].
    apply Z.eqb_eq in Hg. apply in_flat_map in Hin as (r' & Hr' & Hg').
    destruct (fst r' =? i) eqn:E'; [|contradiction].
    apply Z.eqb_eq in E'. apply filter_In in Hg' as [_ Hg'].
    apply Z.eqb_eq in Hg'. apply Hr.
    destruct r, r'; simpl in *. now replace (z, z0) with (z1, z2) by congruence.
Qed.

Lemma NoDup_only {A : Type} (l : list A) (x : A) :
  NoDup l -> (forall y, In y l <-> y = x) -> l = [x].
Proof.
  intros Hnd H. destruct l as [|a [|b r]].
  - exfalso. now apply (proj2 (H x) eq_refl).
  - f_equal. apply H. now left.
  - exfalso. inversion Hnd as [|? ? Hnotin _]; subst. apply Hnotin.
    assert (a = x) by (apply H; now left).
    assert (b = x) by (apply H; right; now left).
    subst. now left.
Qed.

(** *** The handlers, step by step *)

Lemma create_task_inv (payload : TaskCreate.t) (now : Z) (db : DB)
    (r : TaskORM) (db' : DB) :
  create_task payload now db = Ok (r, db') ->
  exists gs db1,
    match TaskCreate.tags payload with
    | Some names =>
        if PyStr.nonempty names then _get_or_create_tags names db
        else Ok ([], db)
    | None => Ok ([], db)
    end = Ok (gs, db1) /\
    let task := Task.mk (tasks_id_seq db1) (TaskCreate.title payload)
                        (TaskCreate.description payload)
                        (TaskCreate.priority payload)
                        (TaskCreate.due_date payload) false false None
                        now now in
    Z.of_nat (String.length (TaskCreate.title payload)) <= 200 /\
    db' = assign_tags (Task.id task) gs
            (mkDB (tbl_tasks db1 ++ [task]) (tbl_tags db1) (tbl_task_tags db1)
                  (tasks_id_seq db1 + 1) (tags_id_seq db1)) /\
    r = load db' task.
Proof.
  unfold create_task.
  destruct (match TaskCreate.tags payload with
            | Some names => if PyStr.nonempty names
                            then _get_or_create_tags names db else Ok ([], db)
            | None => Ok ([], db) end) as [[gs db1]|e] eqn:St; simpl;
    [|discriminate].
  destruct (check_task _) as [task|e] eqn:C; simpl; [|discriminate].
  apply check_task_ok in C as [-> Hlen]. simpl in *.
  intros [= <- <-]. exists gs, db1. auto.
Qed.

Lemma create_stage_spec (payload : TaskCreate.t) (db : DB)
    (gs : list Tag.t) (db1 : DB) :
  match TaskCreate.tags payload with
  | Some names =>
      if PyStr.nonempty names then _get_or_create_tags names db
      else Ok ([], db)
  | None => Ok ([], db)
  end = Ok (gs, db1) ->
  wf db ->
  wf db1 /\ tbl_tasks db1 = tbl_tasks db /\
  tbl_task_tags db1 = tbl_task_tags db /\
  tasks_id_seq db1 = tasks_id_seq db /\
  (exists new, tbl_tags db1 = tbl_tags db ++ new) /\
  (forall g, In g gs -> In g (tbl_tags db1)).
Proof.
  intros H W.
  assert (Hnil : Ok ([] : list Tag.t, db) = Ok (gs, db1) ->
                 wf db1 /\ tbl_tasks db1 = tbl_tasks db /\
                 tbl_task_tags db1 = tbl_task_tags db /\
                 tasks_id_seq db1 = tasks_id_seq db /\
                 (exists new, tbl_tags db1 = tbl_tags db ++ new) /\
                 (forall g, In g gs -> In g (tbl_tags db1))).
  { intros [= <- <-]. splits; auto.
    - exists []. now rewrite app_nil_r.
    - intros g []. }
  destruct (TaskCreate.tags payload) as [names|]; [|now apply Hnil].
  destruct (PyStr.nonempty names); [|now apply Hnil].
  destruct (get_or_create_spec names db gs db1 H W)
    as (W1 & T & A & S & N & G & _).
  splits; auto.
Qed.

Lemma wf_create_task (payload : TaskCreate.t) (now : Z) (db : DB)
    (r : TaskORM) (db' : DB) :
  wf db -> create_task payload now db = Ok (r, db') -> wf db'.
Proof.
  intros W H. apply create_task_inv in H as (gs & db1 & Hs & Hlen & -> & _).
  destruct (create_stage_spec payload db gs db1 Hs W)
    as (W1 & T & A & S & _ & G).
  simpl. apply wf_assign_tags.
  - constructor; simpl; try apply W1.
    + rewrite map_app; simpl. apply NoDup_app;
        [apply W1 | repeat constructor; auto |].
      intros i Hi [<-|[]]. apply in_map_iff in Hi as (t & E & Ht).
      apply (wf_task_seq db1 W1) in Ht. lia.
    + intros t Ht. apply in_app_iff in Ht as [Ht|[<-|[]]]; simpl.
      * apply (wf_task_seq db1 W1) in Ht. lia.
      * lia.
    + intros x Hx. rewrite map_app. apply in_app_iff. left.
      now apply (wf_fk_task db1 W1).
    + intros t Ht. apply in_app_iff in Ht as [Ht|[<-|[]]]; simpl.
      * now apply (wf_titles db1 W1).
      * exact Hlen.
  - simpl. rewrite map_app. apply in_app_iff. right. now left.
  - exact G.
Qed.

Lemma update_task_inv (task_id : Z) (payload : TaskUpdate.t) (now : Z)
    (db : DB) (r : TaskORM) (db' : DB) :
  update_task task_id payload now db = Ok (r, db') ->
  exists task db1 title priority due_date completed r0,
    select_live task_id db = [task] /\
    match TaskUpdate.tags payload with
    | Unset => Ok db
    | Given (Some tag_names) =>
        '(tags, db2) <- _get_or_create_tags tag_names db ;;
        Ok (assign_tags task_id tags db2)
    | Given None => Ok (assign_tags task_id [] db)
    end = Ok db1 /\
    set_column (TaskUpdate.title payload) (Task.title task) = Ok title /\
    set_column (TaskUpdate.priority payload) (Task.priority task)
      = Ok priority /\
    set_column (TaskUpdate.due_date payload) (Task.due_date task)
      = Ok due_date /\
    set_column (TaskUpdate.completed payload) (Task.completed task)
      = Ok completed /\
    flush_task task
      (Task.mk (Task.id task) title
               (set_nullable (TaskUpdate.description payload)
                             (Task.description task))
               priority due_date completed (Task.is_deleted task)
               (Task.deleted_at task) (Task.created_at task)
               (Task.updated_at task))
      now db1 = Ok (r0, db') /\
    r = load db' r0.
Proof.
  unfold update_task.
  destruct (scalar_one_or_none (select_live task_id db)) as [[task|]|e] eqn:L;
    simpl; try discriminate.
  apply scalar_some in L.
  destruct (match TaskUpdate.tags payload with
            | Unset => Ok db
            | Given (Some tag_names) => _
            | Given None => _ end) as [db1|e] eqn:St; simpl; [|discriminate].
  destruct (set_column (TaskUpdate.title payload) _) as [title|e] eqn:E1;
    simpl; [|discriminate].
  destruct (set_column (TaskUpdate.priority payload) _) as [priority|e] eqn:E2;
    simpl; [|discriminate].
  destruct (set_column (TaskUpdate.due_date payload) _) as [due_date|e] eqn:E3;
    simpl; [|discriminate].
  destruct (set_column (TaskUpdate.completed payload) _) as [completed|e] eqn:E4;
    simpl; [|discriminate].
  destruct (flush_task _ _ _ _) as [[r0 db2]|e] eqn:F; simpl; [|discriminate].
  intros [= <- <-].
  exists task, db1, title, priority, due_date, completed, r0. splits; auto.
Qed.

(** The tag stage of an update touches neither the task rows nor the task
    sequence, and keeps the store well formed. *)
Lemma update_stage_spec (task_id : Z) (payload : TaskUpdate.t) (db db1 : DB) :
  match TaskUpdate.tags payload with
  | Unset => Ok db
  | Given (Some tag_names) =>
      '(tags, db2) <- _get_or_create_tags tag_names db ;;
      Ok (assign_tags task_id tags db2)
  | Given None => Ok (assign_tags task_id [] db)
  end = Ok db1 ->
  wf db -> In task_id (map Task.id (tbl_tasks db)) ->
  wf db1 /\ tbl_tasks db1 = tbl_tasks db /\
  (exists new, tbl_tags db1 = tbl_tags db ++ new).
Proof.
  intros H W Hid.
  destruct (TaskUpdate.tags payload) as [|[names|]].
  - injection H as <-. splits; auto. exists []. now rewrite app_nil_r.
  - destruct (_get_or_create_tags names db) as [[gs db2]|e] eqn:R;
      simpl in H; [|discriminate].
    injection H as <-.
    destruct (get_or_create_spec names db gs db2 R W)
      as (W2 & T & A & S & N & G & _).
    splits; auto. apply wf_assign_tags; auto. now rewrite T.
  - injection H as <-. splits; auto.
    + apply wf_assign_tags; auto. intros g [].
    + exists []. now rewrite app_nil_r.
Qed.

Lemma wf_update_task (task_id : Z) (payload : TaskUpdate.t) (now : Z)
    (db : DB) (r : TaskORM) (db' : DB) :
  wf db -> update_task task_id payload now db = Ok (r, db') -> wf db'.
Proof.
  intros W H.
  apply update_task_inv in H
    as (task & db1 & ti & pr & du & co & r0 & L & St & _ & _ & _ & _ & F & _).
  assert (Ht : In task (select_live task_id db)) by (rewrite L; now left).
  apply select_live_In in Ht as (Hin & Hid & _).
  destruct (update_stage_spec task_id payload db db1 St W) as (W1 & T & _).
  { rewrite <- Hid. now apply in_map. }
  apply flush_task_inv in F as [(_ & _ & ->)|(_ & -> & -> & Hlen)];
    [assumption|].
  apply (wf_update_row _ task); auto. now rewrite T.
Qed.

Lemma delete_task_inv (task_id : Z) (now db_now : Z) (db db' : DB) :
  delete_task task_id now db_now db = Ok (tt, db') ->
  exists task,
    select_live task_id db = [task] /\
    let r := Task.mk (Task.id task) (Task.title task) (Task.description task)
                     (Task.priority task) (Task.due_date task)
                     (Task.completed task) true (Some now)
                     (Task.created_at task) db_now in
    db' = update_row r db /\
    Z.of_nat (String.length (Task.title task)) <= 200.
Proof.
  unfold delete_task.
  destruct (scalar_one_or_none (select_live task_id db)) as [[task|]|e] eqn:L;
    simpl; try discriminate.
  apply scalar_some in L.
  destruct (flush_task _ _ _ _) as [[r0 db2]|e] eqn:F; simpl; [|discriminate].
  intros [= <-]. exists task. split; [assumption|].
  apply flush_task_inv in F as [(E & _)|(_ & -> & -> & Hlen)].
  - exfalso.
    assert (Ht : In task (select_live task_id db)) by (rewrite L; now left).
    apply select_live_In in Ht as (_ & _ & Hlive).
    rewrite <- E in Hlive. discriminate.
  - simpl in *. auto.
Qed.

Lemma wf_delete_task (task_id : Z) (now db_now : Z) (db db' : DB) :
  wf db -> delete_task task_id now db_now db = Ok (tt, db') -> wf db'.
Proof.
  intros W H. apply delete_task_inv in H as (task & L & -> & Hlen).
  assert (Ht : In task (select_live task_id db)) by (rewrite L; now left).
  apply select_live_In in Ht as (Hin & _ & _).
  now apply (wf_update_row _ task).
Qed.

(** *** When the handlers succeed *)

Lemma get_or_create_succeeds (names : list string) :
  forall db : DB,
    wf db ->
    Forall (fun n => Z.of_nat (String.length n) <= 100) names ->
    exists gs db', _get_or_create_tags names db = Ok (gs, db').
Proof.
  induction names as [|name rest IH]; intros db W HF; simpl; [eauto|].
  inversion HF as [|? ? Hlen Hrest]; subst.
  destruct (lookup_name_cases db name (wf_tag_names db W))
    as [(g & _ & _ & ->)|(Hout & ->)]; simpl.
  - destruct (IH db W Hrest) as (gs & db' & ->). simpl. eauto.
  - destruct (insert_tag name db) as [[g db1]|e] eqn:I; simpl.
    + destruct (IH db1 (wf_insert_tag _ _ _ _ W I) Hrest) as (gs & db' & ->).
      simpl. eauto.
    + exfalso. unfold insert_tag in I.
      destruct (100 <? Z.of_nat (String.length name)) eqn:L;
        [apply Z.ltb_lt in L; lia|].
      destruct (existsb (fun g0 => (Tag.name g0 =? name)%string) (tbl_tags db))
        eqn:E; [|discriminate].
      apply existsb_exists in E as (g0 & Hg0 & En).
      apply String.eqb_eq in En. apply Hout. rewrite <- En. now apply in_map.
Qed.

(** An update of a live task goes through when the payload gives no [null]
    to a NOT NULL column and its strings fit their columns. *)
Lemma update_task_succeeds (task_id : Z) (payload : TaskUpdate.t) (now : Z)
    (db : DB) (t : Task.t) :
  wf db -> In t (tbl_tasks db) -> Task.id t = task_id ->
  Task.is_deleted t = false ->
  TaskUpdate.title payload <> Given None ->
  TaskUpdate.priority payload <> Given None ->
  TaskUpdate.due_date payload <> Given None ->
  TaskUpdate.completed payload <> Given None ->
  (forall s, TaskUpdate.title payload = Given (Some s) ->
             Z.of_nat (String.length s) <= 200) ->
  (forall names, TaskUpdate.tags payload = Given (Some names) ->
                 Forall (fun n => Z.of_nat (String.length n) <= 100) names) ->
  exists r db', update_task task_id payload now db = Ok (r, db').
Proof.
  intros W Hin Hid Hlive N1 N2 N3 N4 Hti Htg. subst task_id.
  unfold update_task.
  rewrite (select_live_one db t (wf_task_ids db W) Hin Hlive). simpl.
  assert (St : exists db1,
             match TaskUpdate.tags payload with
             | Unset => Ok db
             | Given (Some tag_names) =>
                 '(tags, db2) <- _get_or_create_tags tag_names db ;;
                 Ok (assign_tags (Task.id t) tags db2)
             | Given None => Ok (assign_tags (Task.id t) [] db)
             end = Ok db1).
  { destruct (TaskUpdate.tags payload) as [|[names|]]; eauto.
    destruct (get_or_create_succeeds names db W (Htg names eq_refl))
      as (gs & db2 & ->). simpl. eauto. }
  destruct St as (db1 & ->). simpl.
  assert (C : forall (A : Type) (f : field A) (old : A),
             f <> Given None -> exists v, set_column f old = Ok v).
  { intros A [|[v|]] old Hf; simpl; eauto. congruence. }
  destruct (C _ _ (Task.title t) N1) as (ti & E1). rewrite E1. simpl.
  destruct (C _ _ (Task.priority t) N2) as (pr & ->). simpl.
  destruct (C _ _ (Task.due_date t) N3) as (du & ->). simpl.
  destruct (C _ _ (Task.completed t) N4) as (co & ->). simpl.
  unfold flush_task. destruct (Task.eq_dec _ t) as [_|_]; simpl; [eauto|].
  rewrite check_task_pass; simpl; [eauto|].
  destruct (TaskUpdate.title payload) as [|[s|]]; simpl in E1.
  - injection E1 as <-. now apply (wf_titles db W).
  - injection E1 as <-. now apply Hti.
  - discriminate.
Qed.

Lemma wf_empty : wf empty_db.
Proof. constructor; simpl; try constructor; intros ? []. Qed.

Lemma wf_step (db db' : DB) : wf db -> step db db' -> wf db'.
Proof.
  intros W [payload now r H|i payload now r H|i now db_now H].
  - eapply wf_create_task; eauto.
  - eapply wf_update_task; eauto.
  - eapply wf_delete_task; eauto.
Qed.

Lemma reachable_wf (db : DB) : reachable db -> wf db.
Proof.
  induction 1 as [|db db' _ IH S]; [apply wf_empty | eapply wf_step; eauto].
Qed.

End StorageFacts.

(** ** Sample stores are reachable *)

Lemma sample_db_reachable : reachable sample_db.
Proof.
  apply (reachable_step empty_db); [apply reachable_empty|].
  apply (step_create _ _
           (TaskCreate.mk "Updatable" None 2 tomorrow (Some ["original"])) 10
           (load sample_db
                 (Task.mk 1 "Updatable" None 2 tomorrow false false None 10 10))).
  reflexivity.
Defined.

Lemma wf_sample_db : wf sample_db.
Proof. apply reachable_wf, sample_db_reachable. Defined.

Lemma seed_db_reachable : reachable seed_db.
Proof.
  apply (reachable_step seed_db3).
  - apply (reachable_step seed_db2).
    + apply (reachable_step seed_db1).
      * apply (reachable_step empty_db); [apply reachable_empty|].
        eapply (step_create _ _ seed_a 10). reflexivity.
      * eapply (step_create _ _ seed_b 11). reflexivity.
    + eapply (step_create _ _ seed_c 12). reflexivity.
  - eapply (step_create _ _ seed_d 13). reflexivity.
Defined.

Lemma wf_seed_db : wf seed_db.
Proof. apply reachable_wf, seed_db_reachable. Defined.

Lemma seed_deleted_db_reachable : reachable seed_deleted_db.
Proof.
  apply (reachable_step seed_db); [apply seed_db_reachable|].
  apply (step_delete _ _ 1 20 20). reflexivity.
Defined.

Lemma wf_seed_deleted_db : wf seed_deleted_db.
Proof. apply reachable_wf, seed_deleted_db_reachable. Defined.

(** * Listing *)





(** *** The request and its parameters *)

Lemma pow_2_31 : 2 ^ 31 = 2147483648.
Proof. reflexivity. Qed.

Lemma pow_2_63 : 2 ^ 63 = 9223372036854775808.
Proof. reflexivity. Qed.

Lemma int32_spec (v : Z) : int32 v = true <-> - 2 ^ 31 <= v < 2 ^ 31.
Proof. unfold int32. rewrite andb_true_iff, Z.leb_le, Z.ltb_lt. tauto. Qed.

Lemma int64_spec (v : Z) : int64 v = true <-> - 2 ^ 63 <= v < 2 ^ 63.
Proof. unfold int64. rewrite andb_true_iff, Z.leb_le, Z.ltb_lt. tauto. Qed.

Lemma query_valid_spec (priority : option Z) (limit offset : Z) :
  query_valid priority limit offset = true <->
  valid_priority priority /\ 1 <= limit <= 100 /\ 0 <= offset.
Proof.
  unfold query_valid, valid_priority.
  rewrite !andb_true_iff, !Z.leb_le.
  destruct priority as [p|].
  - rewrite andb_true_iff, !Z.leb_le. tauto.
  - intuition.
Qed.

(** A listing goes through exactly when the parameters pass their bounds
    and the offset fits 64 bits, and is then the body's answer. *)
Lemma list_tasks_request_ok (c : option bool) (p : option Z)
    (tg : option string) (l o : Z) (db : DB) (page : PaginatedTaskResponse) :
  list_tasks_request c p tg l o db = Ok page <->
  valid_priority p /\ 1 <= l <= 100 /\ 0 <= o < 2 ^ 63 /\
  page = list_tasks c p tg l o db.
Proof.
  unfold list_tasks_request, bind_offset.
  destruct (query_valid p l o) eqn:V.
  - apply query_valid_spec in V as (Vp & Vl & Vo).
    destruct (int64 o) eqn:I; simpl.
    + apply int64_spec in I. split.
      * intros [= <-]. splits; auto; lia.
      * intros (_ & _ & _ & ->). reflexivity.
    + split; [discriminate|]. intros (_ & _ & Ho & _).
      assert (X : int64 o = true) by (apply int64_spec; rewrite pow_2_63 in *; lia).
      congruence.
  - split; [discriminate|]. intros (Vp & Vl & Vo & _).
    assert (X : query_valid p l o = true)
      by (apply query_valid_spec; splits; auto; lia).
    congruence.
Qed.






(** Every row of the query lies on some page. *)
Lemma query_row_on_a_page (c : option bool) (p : option Z)
    (tg : option string) (l : Z) (db : DB) (t : Task.t) :
  wf db -> 1 <= l -> In t (query_rows c p tg db) ->
  exists o, 0 <= o /\ In t (map row (tasks (list_tasks c p tg l o db))).
Proof.
  intros W Hl Ht.
  apply (proj2 (order_by_In _ _)) in Ht.
  apply In_nth_error in Ht as (n & Hn).
  exists (Z.of_nat n). split; [lia|].
  rewrite (page_window c p tg l _ db (wf_task_ids db W)), Nat2Z.id.
  apply skipn_nth_error in Hn as (rest & ->).
  destruct (Z.to_nat l) as [|k] eqn:E; [lia|]. simpl. now left.
Qed.



(** * Soft delete *)

Lemma get_task_deleted (db : DB) (t : Task.t) :
  wf db -> In t (tbl_tasks db) -> Task.is_deleted t = true ->
  get_task (Task.id t) db = Raise HTTP404.
Proof.
  intros W Hin Hdel. unfold get_task.
  rewrite select_live_none; [reflexivity|].
  intros t' Hin' Hid.
  now rewrite (NoDup_map_In_eq Task.id _ t' t (wf_task_ids db W) Hin' Hin Hid).
Qed.

Lemma list_tasks_hides_deleted (db : DB) (t : Task.t) (c : option bool)
    (p : option Z) (tg : option string) (l o : Z) :
  wf db -> In t (tbl_tasks db) -> Task.is_deleted t = true ->
  ~ In (Task.id t) (page_ids (list_tasks c p tg l o db)).
Proof.
  intros W Hin Hdel Hpage. unfold page_ids in Hpage.
  apply in_map_iff in Hpage as (x & Hid & Hx).
  apply page_rows in Hx as [Hx _]. apply query_rows_live in Hx as [Hx Hlive].
  rewrite (NoDup_map_In_eq Task.id _ _ t (wf_task_ids db W) Hx Hin Hid)
    in Hlive.
  congruence.
Qed.

(** No request changes or removes a row that is already soft-deleted. *)
Lemma deleted_row_stays (db db' : DB) (t : Task.t) :
  wf db -> step db db' ->
  In t (tbl_tasks db) -> Task.is_deleted t = true -> In t (tbl_tasks db').
Proof.
  intros W S Hin Hdel.
  assert (Hother : forall task i, select_live i db = [task] ->
                                  Task.id t <> Task.id task).
  { intros task i L E.
    assert (Ht : In task (select_live i db)) by (rewrite L; now left).
    apply select_live_In in Ht as (Hin' & _ & Hlive).
    rewrite (NoDup_map_In_eq Task.id _ t task (wf_task_ids db W) Hin Hin' E)
      in Hdel.
    congruence. }
  destruct S as [payload now r H|i payload now r H|i now db_now H].
  - apply create_task_inv in H as (gs & db1 & Hs & _ & -> & _).
    destruct (create_stage_spec payload db gs db1 Hs W) as (_ & T & _).
    simpl. rewrite T. apply in_app_iff. now left.
  - apply update_task_inv in H
      as (task & db1 & ti & pr & du & co & r0 & L & St & _ & _ & _ & _ & F & _).
    assert (Ht : In task (select_live i db)) by (rewrite L; now left).
    apply select_live_In in Ht as (Hin' & Hid & _).
    destruct (update_stage_spec i payload db db1 St W) as (_ & T & _).
    { rewrite <- Hid. now apply in_map. }
    apply flush_task_inv in F as [(_ & _ & ->)|(_ & -> & -> & _)].
    + now rewrite T.
    + apply update_row_other; [now rewrite T|]. simpl. eauto.
  - apply delete_task_inv in H as (task & L & -> & _).
    apply update_row_other; [assumption|]. simpl. eauto.
Qed.

(** C3: a soft-deleted task cannot be read: [get_task] on its id answers
    404 and no listing, under any filters and pagination, contains it or
    any other deleted row; the row stays in storage, through the delete
    itself and through every later request. *)
Theorem C3_soft_deleted_never_observable (db : DB) (t : Task.t) :
  wf db -> In t (tbl_tasks db) -> Task.is_deleted t = true ->
  get_task (Task.id t) db = Raise HTTP404 /\
  (forall c p tg l o,
     ~ In (Task.id t) (page_ids (list_tasks c p tg l o db)) /\
     forall x, In x (tasks (list_tasks c p tg l o db)) ->
               Task.is_deleted (row x) = false) /\
  (forall db', step db db' ->
               In t (tbl_tasks db') /\
               get_task (Task.id t) db' = Raise HTTP404 /\
               forall c p tg l o,
                 ~ In (Task.id t) (page_ids (list_tasks c p tg l o db'))).
Proof.
  intros W Hin Hdel. splits.
  - now apply get_task_deleted.
  - intros c p tg l o. split; [now apply list_tasks_hides_deleted|].
    intros x Hx. apply page_rows in Hx as [Hx _].
    now apply query_rows_live in Hx.
  - intros db' S.
    pose proof (wf_step db db' W S) as W'.
    pose proof (deleted_row_stays db db' t W S Hin Hdel) as Hin'.
    splits; auto.
    + now apply get_task_deleted.
    + intros. now apply list_tasks_hides_deleted.
Qed.

Lemma C3_soft_deleted_witness :
  let t := Task.mk 1 "Task A" None 5 tomorrow false true (Some 20) 10 20 in
  wf seed_deleted_db /\ In t (tbl_tasks seed_deleted_db) /\
  get_task 1 seed_deleted_db = Raise HTTP404 /\
  ~ In 1 (page_ids (list_tasks None None (Some "work") 20 0 seed_deleted_db)).
Proof.
  intros t.
  destruct (C3_soft_deleted_never_observable seed_deleted_db t
              wf_seed_deleted_db (or_introl eq_refl) eq_refl) as (G & L & _).
  splits; [exact wf_seed_deleted_db | now left | exact G |].
  apply (L None None (Some "work") 20 0).
Defined.





Lemma request_bound {A : Type} (handler : Z -> result A) (task_id : Z) :
  int32 task_id = true ->
  (i <- bind_id task_id ;; handler i) = handler task_id.
Proof. intros H. unfold bind_id. now rewrite H. Qed.

Lemma request_unbound {A : Type} (handler : Z -> result A) (task_id : Z) :
  int32 task_id = false ->
  (i <- bind_id task_id ;; handler i) = Raise DBAPIError.
Proof. intros H. unfold bind_id. now rewrite H. Qed.

(** A request that answers is its handler answering on the bound id. *)
Lemma request_answers {A : Type} (handler : Z -> result A) (task_id : Z)
    (a : A) :
  (i <- bind_id task_id ;; handler i) = Ok a <->
  int32 task_id = true /\ handler task_id = Ok a.
Proof.
  unfold bind_id. destruct (int32 task_id); simpl.
  - tauto.
  - split; [discriminate | intros [X _]; discriminate X].
Qed.




(** * The deleted flag and its timestamp *)

Lemma deleted_inv_update_row (r : Task.t) (db : DB) :
  deleted_inv db ->
  (Task.is_deleted r = false <-> Task.deleted_at r = None) ->
  deleted_inv (update_row r db).
Proof.
  intros I Hr t Ht. apply update_row_In in Ht as [->|[Ht _]]; auto.
Qed.

Lemma deleted_inv_step (db db' : DB) :
  deleted_inv db -> step db db' -> deleted_inv db'.
Proof.
  intros I [payload now r H|i payload now r H|i now db_now H].
  - apply create_task_inv in H as (gs & db1 & Hs & _ & -> & _).
    assert (T : tbl_tasks db1 = tbl_tasks db).
    { destruct (TaskCreate.tags payload) as [names|]; [|congruence].
      destruct (PyStr.nonempty names); [|congruence].
      now apply get_or_create_frame in Hs. }
    intros t Ht. simpl in Ht. rewrite T in Ht.
    apply in_app_iff in Ht as [Ht|[<-|[]]]; [now apply I | simpl; tauto].
  - apply update_task_inv in H
      as (task & db1 & ti & pr & du & co & r0 & L & St & _ & _ & _ & _ & F & _).
    assert (Ht : In task (select_live i db)) by (rewrite L; now left).
    apply select_live_In in Ht as (Hin & _ & _).
    assert (T : tbl_tasks db1 = tbl_tasks db).
    { destruct (TaskUpdate.tags payload) as [|[names|]];
        [congruence | | injection St as <-; reflexivity].
      destruct (_get_or_create_tags names db) as [[gs db2]|e] eqn:R;
        simpl in St; [|discriminate].
      injection St as <-. simpl. now apply get_or_create_frame in R. }
    assert (I1 : deleted_inv db1) by (intros t; rewrite T; apply I).
    apply flush_task_inv in F as [(_ & _ & ->)|(_ & -> & -> & _)];
      [assumption|].
    apply deleted_inv_update_row; [assumption|]. simpl. now apply I.
  - apply delete_task_inv in H as (task & _ & -> & _).
    apply deleted_inv_update_row; [assumption|]. simpl.
    split; discriminate.
Qed.

(** C7: on every task of every reachable store [is_deleted = false] holds
    exactly when [deleted_at] is null, and each request (create, update,
    soft delete) committed from such a store keeps it so. *)
Theorem C7_is_deleted_iff_deleted_at (db : DB) :
  reachable db ->
  (forall t, In t (tbl_tasks db) ->
             (Task.is_deleted t = false <-> Task.deleted_at t = None)) /\
  (forall db', step db db' ->
     forall t, In t (tbl_tasks db') ->
               (Task.is_deleted t = false <-> Task.deleted_at t = None)).
Proof.
  intros R.
  assert (I : deleted_inv db).
  { induction R as [|db db' _ IH S]; [intros t [] | eapply deleted_inv_step; eauto]. }
  split; [exact I|]. intros db' S. now apply (deleted_inv_step db db').
Qed.

Lemma C7_is_deleted_witness :
  reachable seed_deleted_db /\
  forall t, In t (tbl_tasks seed_deleted_db) ->
            (Task.is_deleted t = false <-> Task.deleted_at t = None).
Proof.
  split; [exact seed_deleted_db_reachable|].
  exact (proj1 (C7_is_deleted_iff_deleted_at seed_deleted_db
                  seed_deleted_db_reachable)).
Defined.

(** * Tags *)

Lemma resolve_existing (db : DB) (g : Tag.t) :
  NoDup (map Tag.name (tbl_tags db)) -> In g (tbl_tags db) ->
  _get_or_create_tags [Tag.name g] db = Ok ([g], db).
Proof.
  intros Hnd Hin. simpl. now rewrite (lookup_name_found db g Hnd Hin).
Qed.

Lemma resolve_finds_existing (names : list string) (db db' : DB)
    (gs : list Tag.t) (g : Tag.t) :
  wf db -> _get_or_create_tags names db = Ok (gs, db') ->
  In g (tbl_tags db) -> In (Tag.name g) names -> In g gs.
Proof.
  intros W H Hin Hname.
  destruct (get_or_create_spec names db gs db' H W)
    as (W' & _ & _ & _ & (new & N) & G & Hnames).
  rewrite <- Hnames in Hname. apply in_map_iff in Hname as (g' & E & Hg').
  replace g with g'; [assumption|].
  apply (NoDup_map_In_eq Tag.name (tbl_tags db')); auto.
  - apply W'.
  - rewrite N. apply in_app_iff. now left.
Qed.

Lemma create_with_existing_tag (db : DB) (g : Tag.t) (payload : TaskCreate.t)
    (now : Z) :
  wf db -> In g (tbl_tags db) ->
  TaskCreate.tags payload = Some [Tag.name g] ->
  Z.of_nat (String.length (TaskCreate.title payload)) <= 200 ->
  exists r db',
    create_task payload now db = Ok (r, db') /\
    tags r = [g] /\ tbl_tags db' = tbl_tags db.
Proof.
  intros W Hin Htags Hlen.
  destruct (create_task payload now db) as [[r db']|e] eqn:C.
  - exists r, db'. split; [reflexivity|].
    pose proof (wf_create_task _ _ _ _ _ W C) as W'.
    apply create_task_inv in C as (gs & db1 & Hs & _ & Hdb & ->).
    rewrite Htags in Hs. simpl in Hs.
    rewrite (lookup_name_found db g (wf_tag_names db W) Hin) in Hs.
    simpl in Hs. injection Hs as <- <-.
    split; [|now rewrite Hdb].
    unfold load; simpl. apply NoDup_only.
    + apply task_tags_of_NoDup; apply W'.
    + intros y. rewrite Hdb at 1. rewrite assign_tags_loaded. simpl.
      split.
      * intros [Hy [E|[]]].
        apply (NoDup_map_In_eq Tag.id (tbl_tags db)); auto. apply W.
      * intros ->. auto.
  - exfalso. unfold create_task in C. rewrite Htags in C. simpl in C.
    rewrite (lookup_name_found db g (wf_tag_names db W) Hin) in C.
    simpl in C. rewrite check_task_pass in C by assumption.
    simpl in C. discriminate.
Qed.

(** C6: a name that already has a [Tag] row resolves to that row and no row
    is written; a task created with an already-used name carries the same
    tag, id included; so every reachable store, and every store a request
    commits from it, has at most one [Tag] row per name. *)
Theorem C6_tag_name_resolves_to_existing_row (db : DB) :
  reachable db ->
  NoDup (map Tag.name (tbl_tags db)) /\
  (forall db', step db db' -> NoDup (map Tag.name (tbl_tags db'))) /\
  (forall g, In g (tbl_tags db) ->
     _get_or_create_tags [Tag.name g] db = Ok ([g], db) /\
     (forall names gs db',
        _get_or_create_tags names db = Ok (gs, db') ->
        In (Tag.name g) names -> In g gs) /\
     (forall payload now,
        TaskCreate.tags payload = Some [Tag.name g] ->
        Z.of_nat (String.length (TaskCreate.title payload)) <= 200 ->
        exists r db',
          create_task payload now db = Ok (r, db') /\
          tags r = [g] /\ tbl_tags db' = tbl_tags db)).
Proof.
  intros R. pose proof (reachable_wf db R) as W. splits.
  - apply W.
  - intros db' S. apply (wf_step db db' W S).
  - intros g Hin. splits.
    + apply resolve_existing; [apply W | assumption].
    + intros names gs db' H Hname. eapply resolve_finds_existing; eauto.
    + intros payload now. now apply create_with_existing_tag.
Qed.

Lemma C6_tag_reuse_witness :
  reachable seed_db1 /\
  _get_or_create_tags ["work"] seed_db1 = Ok ([Tag.mk 1 "work"], seed_db1) /\
  exists r db',
    create_task (TaskCreate.mk "Second" None 1 tomorrow (Some ["work"])) 11
                seed_db1 = Ok (r, db') /\
    tags r = [Tag.mk 1 "work"] /\ tbl_tags db' = tbl_tags seed_db1.
Proof.
  assert (R : reachable seed_db1).
  { apply (reachable_step empty_db); [apply reachable_empty|].
    eapply (step_create _ _ seed_a 10). reflexivity. }
  destruct (C6_tag_name_resolves_to_existing_row seed_db1 R) as (_ & _ & G).
  destruct (G (Tag.mk 1 "work") (or_introl eq_refl)) as (E & _ & C).
  splits; [exact R | exact E |].
  apply (C (TaskCreate.mk "Second" None 1 tomorrow (Some ["work"])) 11 eq_refl).
  vm_compute. discriminate.
Defined.

(** * Partial update *)

Lemma set_column_unset {A : Type} (old v : A) :
  set_column Unset old = Ok v -> v = old.
Proof. simpl. congruence. Qed.

(** Everything the proofs below need to know about a successful update. *)
Lemma update_task_outcome (task_id : Z) (payload : TaskUpdate.t) (now : Z)
    (db : DB) (r : TaskORM) (db' : DB) :
  wf db -> update_task task_id payload now db = Ok (r, db') ->
  exists old title priority due_date completed,
    In old (tbl_tasks db) /\ Task.id old = task_id /\
    Task.is_deleted old = false /\
    get_task task_id db = Ok (load db old) /\
    set_column (TaskUpdate.title payload) (Task.title old) = Ok title /\
    set_column (TaskUpdate.priority payload) (Task.priority old)
      = Ok priority /\
    set_column (TaskUpdate.due_date payload) (Task.due_date old)
      = Ok due_date /\
    set_column (TaskUpdate.completed payload) (Task.completed old)
      = Ok completed /\
    let changed :=
      Task.mk (Task.id old) title
              (set_nullable (TaskUpdate.description payload)
                            (Task.description old))
              priority due_date completed (Task.is_deleted old)
              (Task.deleted_at old) (Task.created_at old)
              (Task.updated_at old) in
    ((changed = old /\ row r = old) \/
     (changed <> old /\ row r = set_updated_at changed now)) /\
    get_task task_id db' = Ok r /\
    tags r = task_tags_of db' task_id /\
    (TaskUpdate.tags payload = Unset ->
     task_tags_of db' task_id = task_tags_of db task_id) /\
    (TaskUpdate.tags payload = Given None ->
     task_tags_of db' task_id = []).
Proof.
  intros W H. pose proof (wf_update_task _ _ _ _ _ _ W H) as W'.
  apply update_task_inv in H
    as (task & db1 & ti & pr & du & co & r0 & L & St & E1 & E2 & E3 & E4 & F & ->).
  assert (Ht : In task (select_live task_id db)) by (rewrite L; now left).
  apply select_live_In in Ht as (Hin & Hid & Hlive).
  assert (Hmem : In task_id (map Task.id (tbl_tasks db)))
    by (rewrite <- Hid; now apply in_map).
  destruct (update_stage_spec task_id payload db db1 St W Hmem) as (_ & T & _).
  exists task, ti, pr, du, co. cbv zeta.
  assert (Hr0 : In r0 (tbl_tasks db') /\ Task.id r0 = task_id /\
                Task.is_deleted r0 = false /\
                task_tags_of db' task_id = task_tags_of db1 task_id).
  { apply flush_task_inv in F as [(_ & -> & ->)|(_ & -> & -> & _)].
    - rewrite T. auto.
    - splits; auto. apply (update_row_has _ task); [now rewrite T | reflexivity]. }
  destruct Hr0 as (Hin0 & Hid0 & Hlive0 & Htags0).
  splits; auto.
  - unfold get_task. now rewrite L.
  - apply flush_task_inv in F as [(E & -> & _)|(E & -> & _ & _)]; auto.
  - unfold get_task. rewrite <- Hid0.
    rewrite (select_live_one db' r0 (wf_task_ids db' W') Hin0 Hlive0).
    reflexivity.
  - unfold load; simpl. now rewrite Hid0.
  - intros U. rewrite U in St. injection St as <-. exact Htags0.
  - intros U. rewrite U in St. injection St as <-. rewrite Htags0.
    apply assign_tags_nil.
Qed.

(** C8: a successful partial update leaves every field that the payload
    does not name as it was: title, description, priority, due_date,
    completed and the tag set each keep their value when left out (so an
    update of the title alone leaves the other five), and id, is_deleted,
    deleted_at and created_at are never written.  The task returned is the
    task that a read then finds. *)
Theorem C8_unnamed_fields_unchanged (task_id : Z) (payload : TaskUpdate.t)
    (now : Z) (db : DB) (r : TaskORM) (db' : DB) :
  wf db -> update_task task_id payload now db = Ok (r, db') ->
  exists before,
    get_task task_id db = Ok before /\
    get_task task_id db' = Ok r /\
    Task.is_deleted (row before) = false /\
    (TaskUpdate.title payload = Unset ->
     Task.title (row r) = Task.title (row before)) /\
    (TaskUpdate.description payload = Unset ->
     Task.description (row r) = Task.description (row before)) /\
    (TaskUpdate.priority payload = Unset ->
     Task.priority (row r) = Task.priority (row before)) /\
    (TaskUpdate.due_date payload = Unset ->
     Task.due_date (row r) = Task.due_date (row before)) /\
    (TaskUpdate.completed payload = Unset ->
     Task.completed (row r) = Task.completed (row before)) /\
    (TaskUpdate.tags payload = Unset -> tags r = tags before) /\
    Task.id (row r) = Task.id (row before) /\
    Task.is_deleted (row r) = Task.is_deleted (row before) /\
    Task.deleted_at (row r) = Task.deleted_at (row before) /\
    Task.created_at (row r) = Task.created_at (row before).
Proof.
  intros W H.
  destruct (update_task_outcome _ _ _ _ _ _ W H)
    as (old & ti & pr & du & co & Hin & Hid & Hlive & G & E1 & E2 & E3 & E4
        & C & G' & Htags & HU & _).
  exists (load db old). simpl.
  assert (X : Task.title (row r) = ti /\
              Task.description (row r)
              = set_nullable (TaskUpdate.description payload)
                             (Task.description old) /\
              Task.priority (row r) = pr /\ Task.due_date (row r) = du /\
              Task.completed (row r) = co /\
              Task.id (row r) = Task.id old /\
              Task.is_deleted (row r) = Task.is_deleted old /\
              Task.deleted_at (row r) = Task.deleted_at old /\
              Task.created_at (row r) = Task.created_at old).
  { destruct C as [[E ->]|[_ ->]]; simpl; [|splits; reflexivity].
    splits; try reflexivity; now rewrite <- E at 1. }
  destruct X as (X1 & X2 & X3 & X4 & X5 & X6 & X7 & X8 & X9).
  splits; auto.
  - intros U. rewrite U in E1. apply set_column_unset in E1. congruence.
  - intros U. rewrite U in X2. exact X2.
  - intros U. rewrite U in E2. apply set_column_unset in E2. congruence.
  - intros U. rewrite U in E3. apply set_column_unset in E3. congruence.
  - intros U. rewrite U in E4. apply set_column_unset in E4. congruence.
  - intros U. rewrite Htags, (HU U). now rewrite Hid.
Qed.

Lemma C8_title_only_witness :
  wf sample_db /\
  exists r db',
    update_task 1 (title_body "X") 20 sample_db = Ok (r, db') /\
    Task.title (row r) = "X" /\
    Task.priority (row r) = 2 /\ Task.due_date (row r) = tomorrow /\
    Task.description (row r) = None /\ Task.completed (row r) = false /\
    tags r = [Tag.mk 1 "original"].
Proof.
  split; [exact wf_sample_db|].
  destruct (update_task 1 (title_body "X") 20 sample_db) as [[r db']|e] eqn:U;
    [|vm_compute in U; discriminate].
  exists r, db'. split; [reflexivity|].
  destruct (C8_unnamed_fields_unchanged 1 (title_body "X") 20 sample_db r db'
              wf_sample_db U)
    as (before & G & _ & _ & _ & D & P & Du & Co & T & _).
  vm_compute in G. injection G as <-.
  vm_compute in U. injection U as <- <-.
  splits; [reflexivity | exact (P eq_refl) | exact (Du eq_refl)
          | exact (D eq_refl) | exact (Co eq_refl) | exact (T eq_refl)].
Defined.

(** C1, as stated, fails: the task of [sample_db] carries the tag
    [original]; after [PATCH /tasks/1] with [{"tags": null}] it carries no
    tag. *)
Lemma C1_null_tags_counterexample :
  task_tags_of sample_db 1 = [Tag.mk 1 "original"] /\
  exists r db',
    update_task 1 (TaskUpdate.model_validate null_tags_body) 20 sample_db
    = Ok (r, db') /\
    tags r = [] /\ task_tags_of db' 1 = [] /\
    task_tags_of db' 1 <> task_tags_of sample_db 1.
Proof.
  split; [reflexivity|].
  eexists _, _. split; [reflexivity|].
  splits; [reflexivity | reflexivity | vm_compute; discriminate].
Qed.

(** C1, amended: an update whose [tags] field is present and null clears the
    tag set of the task, with the very outcome of the same update sent with
    an empty list; only a body without a [tags] field leaves the tag set as
    it was. *)
Theorem C1_null_tags_clears_like_empty_list (task_id : Z)
    (body : TaskUpdate.t) (now : Z) (db : DB) (r : TaskORM) (db' : DB) :
  wf db -> TaskUpdate.tags body = Given None ->
  update_task task_id (TaskUpdate.model_validate body) now db = Ok (r, db') ->
  tags r = [] /\ task_tags_of db' task_id = [] /\
  update_task task_id
    (TaskUpdate.model_validate (with_tags body (Given (Some [])))) now db
  = Ok (r, db') /\
  (forall r0 db0,
     update_task task_id (TaskUpdate.model_validate (with_tags body Unset))
                 now db = Ok (r0, db0) ->
     tags r0 = task_tags_of db task_id /\
     task_tags_of db0 task_id = task_tags_of db task_id).
Proof.
  intros W Hnull H.
  assert (V : TaskUpdate.tags (TaskUpdate.model_validate body) = Given None)
    by (simpl; now rewrite Hnull).
  destruct (update_task_outcome _ _ _ _ _ _ W H)
    as (old & ti & pr & du & co & _ & _ & _ & _ & _ & _ & _ & _ & _ & _
        & Htags & _ & HN).
  splits.
  - rewrite Htags. now apply HN.
  - now apply HN.
  - rewrite <- H. f_equal.
    destruct body; simpl in *; subst; reflexivity.
  - intros r0 db0 H0.
    destruct (update_task_outcome _ _ _ _ _ _ W H0)
      as (old0 & ti0 & pr0 & du0 & co0 & _ & _ & _ & _ & _ & _ & _ & _ & _ & _
          & Htags0 & HU0 & _).
    split; [rewrite Htags0|]; now apply HU0.
Qed.

Lemma C1_null_tags_witness :
  wf sample_db /\ TaskUpdate.tags null_tags_body = Given None /\
  exists r db',
    update_task 1 (TaskUpdate.model_validate null_tags_body) 20 sample_db
    = Ok (r, db') /\
    tags r = [] /\
    update_task 1
      (TaskUpdate.model_validate (with_tags null_tags_body (Given (Some []))))
      20 sample_db = Ok (r, db').
Proof.
  splits; [exact wf_sample_db | reflexivity |].
  destruct (update_task 1 (TaskUpdate.model_validate null_tags_body) 20
                        sample_db) as [[r db']|e] eqn:U;
    [|vm_compute in U; discriminate].
  exists r, db'. split; [reflexivity|].
  destruct (C1_null_tags_clears_like_empty_list 1 null_tags_body 20 sample_db
              r db' wf_sample_db eq_refl U) as (T & _ & E & _).
  split; [exact T | exact E].
Defined.

(** C2, as stated, fails: [sample_db] holds a task last updated at time 10;
    a [PATCH] at time 20 that only replaces its tags succeeds, and so does
    one that sets the title to the title it has, and both leave
    [updated_at] at 10. *)
Lemma C2_updated_at_counterexample :
  (exists r db',
     update_task 1 (TaskUpdate.model_validate only_tags_body) 20 sample_db
     = Ok (r, db') /\
     map Tag.name (tags r) = ["new-tag"] /\
     Task.updated_at (row r) = 10 /\ Task.updated_at (row r) <> 20) /\
  (exists r db',
     update_task 1 (TaskUpdate.model_validate (title_body "Updatable")) 20
                 sample_db = Ok (r, db') /\
     Task.updated_at (row r) = 10 /\ Task.updated_at (row r) <> 20).
Proof.
  split; eexists _, _; (split; [reflexivity|]);
    splits; try reflexivity; vm_compute; discriminate.
Qed.

(** C2, amended: a successful update that gives at least one of the columns
    title, description, priority, due_date, completed a value different
    from the stored one sets [updated_at] to the current time, which
    advances it strictly when the clock is past the previous value; a
    successful update that changes none of these columns (an empty body, a
    body that only replaces tags, fields set to the values they have) leaves
    [updated_at] as it was. *)
Theorem C2_updated_at_follows_column_changes (task_id : Z)
    (payload : TaskUpdate.t) (now : Z) (db : DB) (r : TaskORM) (db' : DB) :
  wf db -> update_task task_id payload now db = Ok (r, db') ->
  exists before,
    get_task task_id db = Ok before /\
    get_task task_id db' = Ok r /\
    (~ same_columns (row r) (row before) ->
     Task.updated_at (row r) = now /\
     (Task.updated_at (row before) < now ->
      Task.updated_at (row before) < Task.updated_at (row r))) /\
    (same_columns (row r) (row before) ->
     Task.updated_at (row r) = Task.updated_at (row before)).
Proof.
  intros W H.
  destruct (update_task_outcome _ _ _ _ _ _ W H)
    as (old & ti & pr & du & co & _ & _ & _ & G & _ & _ & _ & _ & C & G' & _).
  exists (load db old). simpl. splits; auto.
  - intros Hdiff. destruct C as [[_ E]|[_ E]].
    + exfalso. apply Hdiff. rewrite E. unfold same_columns. tauto.
    + rewrite E. simpl. split; [reflexivity | trivial].
  - intros Hsame. destruct C as [[_ E]|[Hne E]]; [now rewrite E|].
    exfalso. apply Hne. rewrite E in Hsame.
    destruct Hsame as (S1 & S2 & S3 & S4 & S5). simpl in *.
    destruct old; simpl in *. congruence.
Qed.

Lemma C2_updated_at_witness :
  wf sample_db /\
  exists r db',
    update_task 1 (title_body "X") 20 sample_db = Ok (r, db') /\
    Task.updated_at (row r) = 20.
Proof.
  split; [exact wf_sample_db|].
  destruct (update_task 1 (title_body "X") 20 sample_db) as [[r db']|e] eqn:U;
    [|vm_compute in U; discriminate].
  exists r, db'. split; [reflexivity|].
  destruct (C2_updated_at_follows_column_changes 1 (title_body "X") 20
              sample_db r db' wf_sample_db U) as (before & G & _ & D & _).
  vm_compute in G. injection G as <-.
  vm_compute in U. injection U as <- <-.
  apply D. unfold same_columns; simpl. intros (E & _). discriminate.
Defined.

(** * Further properties of the validators *)

Section NormalNames.

Lemma isspace_lower_char (c : ascii) :
  PyStr.isspace (PyStr.lower_char c) = PyStr.isspace c.
Proof. destruct c as [[] [] [] [] [] [] [] []]; reflexivity. Qed.

Lemma lower_char_idem (c : ascii) :
  PyStr.lower_char (PyStr.lower_char c) = PyStr.lower_char c.
Proof. destruct c as [[] [] [] [] [] [] [] []]; reflexivity. Qed.

Lemma lower_idem (s : string) : PyStr.lower (PyStr.lower s) = PyStr.lower s.
Proof.
  induction s as [|c r IH]; simpl; [reflexivity|].
  now rewrite lower_char_idem, IH.
Qed.

Lemma lower_empty (s : string) :
  PyStr.lower s = EmptyString <-> s = EmptyString.
Proof. destruct s; simpl; split; congruence. Qed.

Lemma lstrip_lower (s : string) :
  PyStr.lstrip (PyStr.lower s) = PyStr.lower (PyStr.lstrip s).
Proof.
  induction s as [|c r IH]; simpl; [reflexivity|].
  rewrite isspace_lower_char. destruct (PyStr.isspace c); [exact IH | reflexivity].
Qed.

Lemma rstrip_lower (s : string) :
  PyStr.rstrip (PyStr.lower s) = PyStr.lower (PyStr.rstrip s).
Proof.
  induction s as [|c r IH]; simpl; [reflexivity|].
  rewrite IH, isspace_lower_char.
  destruct (PyStr.rstrip r); simpl; [|reflexivity].
  now destruct (PyStr.isspace c).
Qed.

Lemma strip_lower (s : string) :
  PyStr.strip (PyStr.lower s) = PyStr.lower (PyStr.strip s).
Proof. unfold PyStr.strip. now rewrite lstrip_lower, rstrip_lower. Qed.

Lemma rstrip_idem (s : string) : PyStr.rstrip (PyStr.rstrip s) = PyStr.rstrip s.
Proof.
  induction s as [|c r IH]; simpl; [reflexivity|].
  destruct (PyStr.rstrip r) as [|c' r'] eqn:E.
  - destruct (PyStr.isspace c) eqn:S; simpl; [reflexivity|]. now rewrite S.
  - simpl. simpl in IH. now rewrite IH.
Qed.

(** What [lstrip] returns does not start with a blank. *)
Lemma lstrip_head (s : string) :
  match PyStr.lstrip s with
  | EmptyString => True
  | String c _ => PyStr.isspace c = false
  end.
Proof.
  induction s as [|c r IH]; simpl; [exact I|].
  destruct (PyStr.isspace c) eqn:S; [exact IH | exact S].
Qed.

Lemma lstrip_rstrip_fixed (s : string) :
  match s with
  | EmptyString => True
  | String c _ => PyStr.isspace c = false
  end ->
  PyStr.lstrip (PyStr.rstrip s) = PyStr.rstrip s.
Proof.
  destruct s as [|c r]; simpl; [reflexivity|]. intros S.
  destruct (PyStr.rstrip r); simpl; rewrite ?S; simpl; now rewrite ?S.
Qed.

Lemma strip_idem (s : string) : PyStr.strip (PyStr.strip s) = PyStr.strip s.
Proof.
  unfold PyStr.strip.
  rewrite (lstrip_rstrip_fixed (PyStr.lstrip s) (lstrip_head s)).
  apply rstrip_idem.
Qed.

Lemma truthy_spec (s : string) : PyStr.truthy s = true <-> s <> EmptyString.
Proof. destruct s; simpl; split; congruence. Qed.

Lemma normal_name_of (t : string) :
  PyStr.truthy (PyStr.strip t) = true ->
  normal_name (PyStr.lower (PyStr.strip t)).
Proof.
  intros H. unfold normal_name. splits.
  - now rewrite strip_lower, strip_idem.
  - apply lower_idem.
  - rewrite lower_empty. now apply truthy_spec.
Qed.

Lemma clean_normal (l : list string) (n : string) :
  In n (PyStr.clean l) -> normal_name n.
Proof.
  unfold PyStr.clean. intros H. apply in_map_iff in H as (t & <- & Ht).
  apply filter_In in Ht as [_ Ht]. now apply normal_name_of.
Qed.

Lemma clean_fixed (l : list string) :
  (forall n, In n l -> normal_name n) -> PyStr.clean l = l.
Proof.
  unfold PyStr.clean. induction l as [|n r IH]; simpl; intros H; [reflexivity|].
  destruct (H n (or_introl eq_refl)) as (S & L & N).
  rewrite S. apply truthy_spec in N. rewrite N. simpl. rewrite S, L. f_equal.
  apply IH. intros; apply H; now right.
Qed.

Lemma clean_nil_iff (l : list string) :
  PyStr.clean l = [] <-> forall t, In t l -> blank t.
Proof.
  unfold PyStr.clean, blank. induction l as [|t r IH]; simpl.
  - split; [intros _ ? [] | reflexivity].
  - destruct (PyStr.strip t) eqn:S; simpl.
    + rewrite IH. split.
      * intros H x [<-|Hx]; auto.
      * intros H x Hx. apply H. now right.
    + split; [discriminate|]. intros H.
      specialize (H t (or_introl eq_refl)). congruence.
Qed.

End NormalNames.

(** X1: [validate_tags] answers with null or with a list that is not empty
    and holds only trimmed, lower-case, non-empty names; the update schema
    validates tags as the create schema does. *)
Theorem X1_validate_tags_normal_form (v : option (list string)) :
  TaskUpdate.validate_tags v = TaskCreate.validate_tags v /\
  match TaskCreate.validate_tags v with
  | None => True
  | Some names => names <> [] /\ forall n, In n names -> normal_name n
  end.
Proof.
  split; [reflexivity|].
  destruct v as [l|]; simpl; [|exact I].
  destruct (PyStr.clean l) as [|n r] eqn:E; simpl; [exact I|].
  split; [discriminate|]. intros x Hx. apply (clean_normal l). now rewrite E.
Qed.

(** X2: [validate_tags] answers null exactly for null and for a list whose
    entries are all blank, the empty list among them. *)
Theorem X2_validate_tags_null_iff_blank (v : option (list string)) :
  TaskCreate.validate_tags v = None <->
  match v with
  | None => True
  | Some l => forall t, In t l -> blank t
  end.
Proof.
  destruct v as [l|]; simpl; [|tauto].
  rewrite <- clean_nil_iff.
  destruct (PyStr.clean l); simpl; split; congruence.
Qed.

(** X3: validating twice is validating once. *)
Theorem X3_validate_tags_idempotent (v : option (list string)) :
  TaskCreate.validate_tags (TaskCreate.validate_tags v)
  = TaskCreate.validate_tags v.
Proof.
  destruct v as [l|]; simpl; [|reflexivity].
  destruct (PyStr.clean l) as [|n r] eqn:E; simpl; [reflexivity|].
  rewrite <- E. rewrite (clean_fixed (PyStr.clean l) (clean_normal l)).
  now rewrite E.
Qed.

(** Pieces of a split hold no separator. *)
Lemma split_no_sep (sep : ascii) (s : string) :
  Forall (fun p => PyStr.all_chars (fun c => negb (Ascii.eqb c sep)) p = true)
         (PyStr.split sep s).
Proof.
  induction s as [|c r IH]; simpl; [repeat constructor|].
  destruct (Ascii.eqb c sep) eqn:E.
  - constructor; [reflexivity | exact IH].
  - destruct (PyStr.split sep r) as [|p ps]; [repeat constructor; simpl; now rewrite E|].
    inversion IH as [|? ? Hp Hps]; subst.
    constructor; [simpl; now rewrite E, Hp | exact Hps].
Qed.

Lemma lstrip_all (p : ascii -> bool) (s : string) :
  PyStr.all_chars p s = true -> PyStr.all_chars p (PyStr.lstrip s) = true.
Proof.
  induction s as [|c r IH]; simpl; [reflexivity|]. intros H.
  destruct (PyStr.isspace c); [|exact H].
  apply andb_prop in H as [_ H]. now apply IH.
Qed.

Lemma rstrip_all (p : ascii -> bool) (s : string) :
  PyStr.all_chars p s = true -> PyStr.all_chars p (PyStr.rstrip s) = true.
Proof.
  induction s as [|c r IH]; simpl; [reflexivity|]. intros H.
  apply andb_prop in H as [Hc Hr]. specialize (IH Hr).
  destruct (PyStr.rstrip r); simpl.
  - destruct (PyStr.isspace c); simpl; [reflexivity | now rewrite Hc].
  - simpl in IH. now rewrite Hc, IH.
Qed.

Lemma lower_no_comma (s : string) :
  PyStr.all_chars (fun c => negb (Ascii.eqb c ",")) s = true ->
  PyStr.all_chars (fun c => negb (Ascii.eqb c ",")) (PyStr.lower s) = true.
Proof.
  induction s as [|c r IH]; simpl; [reflexivity|]. intros H.
  apply andb_prop in H as [Hc Hr]. rewrite (IH Hr), andb_true_r.
  revert Hc. destruct c as [[] [] [] [] [] [] [] []]; simpl; auto.
Qed.

(** X4: every name that [list_tasks] reads out of its [tags] parameter is
    trimmed, lower case, not empty and free of commas, so it has the shape
    of the names the validators store. *)
Theorem X4_query_tag_names_normal (tags n : string) :
  In n (tag_names_of tags) ->
  normal_name n /\
  PyStr.all_chars (fun c => negb (Ascii.eqb c ",")) n = true.
Proof.
  unfold tag_names_of. intros H. apply in_map_iff in H as (t & <- & Ht).
  apply filter_In in Ht as [Hin Ht]. split; [now apply normal_name_of|].
  apply lower_no_comma. unfold PyStr.strip. apply rstrip_all, lstrip_all.
  pose proof (split_no_sep "," tags) as F. rewrite Forall_forall in F.
  now apply F.
Qed.

Lemma X4_query_tag_names_witness :
  In "urgent" (tag_names_of " Work ,, URGENT ") /\ normal_name "urgent".
Proof.
  split; [vm_compute; auto|].
  apply (X4_query_tag_names_normal " Work ,, URGENT " "urgent").
  vm_compute. auto.
Defined.

(** * Further properties of the tag store *)

Lemma get_or_create_new_rows (names : list string) :
  forall (db : DB) (gs : list Tag.t) (db' : DB),
    _get_or_create_tags names db = Ok (gs, db') ->
    exists new,
      tbl_tags db' = tbl_tags db ++ new /\
      tags_id_seq db <= tags_id_seq db' /\
      forall g, In g new ->
                In (Tag.name g) names /\
                ~ In (Tag.name g) (map Tag.name (tbl_tags db)) /\
                tags_id_seq db <= Tag.id g < tags_id_seq db'.
Proof.
  induction names as [|name rest IH]; simpl; intros db gs db' H.
  - injection H as _ <-. exists []. rewrite app_nil_r.
    split; [reflexivity|]. split; [lia|]. intros g [].
  - destruct (scalar_one_or_none _) as [found|e]; simpl in H; [|discriminate].
    destruct (match found with Some tag => Ok (tag, db)
                          | None => insert_tag name db end)
      as [[g0 db1]|e] eqn:F; simpl in H; [|discriminate].
    destruct (_get_or_create_tags rest db1) as [[gs' db2]|e] eqn:R;
      simpl in H; [|discriminate].
    injection H as _ <-.
    destruct (IH _ _ _ R) as (new2 & N2 & S2 & H2).
    destruct found as [tag|].
    + injection F as _ <-. exists new2. splits; auto.
      intros g Hg. destruct (H2 g Hg) as (A & B & C). auto.
    + apply insert_tag_ok in F as (-> & -> & Hfresh). simpl in *.
      exists (Tag.mk (tags_id_seq db) name :: new2).
      rewrite N2, <- app_assoc. splits; [reflexivity | lia |].
      intros g [<-|Hg]; simpl.
      * split; [now left|]. split; [assumption | lia].
      * destruct (H2 g Hg) as (A & B & C). split; [now right|].
        split; [|lia].
        intros Hin. apply B. rewrite map_app. apply in_app_iff. now left.
Qed.

Lemma resolve_all_existing (gs : list Tag.t) (db : DB) :
  NoDup (map Tag.name (tbl_tags db)) ->
  (forall g, In g gs -> In g (tbl_tags db)) ->
  _get_or_create_tags (map Tag.name gs) db = Ok (gs, db).
Proof.
  intros Hnd. induction gs as [|g r IH]; simpl; intros H; [reflexivity|].
  rewrite (lookup_name_found db g Hnd (H g (or_introl eq_refl))). simpl.
  rewrite IH; [reflexivity|]. intros; apply H; now right.
Qed.

(** X5: resolving names answers one tag per name, in the order of the
    names, each stored under exactly that name; the rows it writes are
    appended to the tags table, carry requested names that had no row, and
    take fresh ids; tasks and association rows are not touched. *)
Theorem X5_get_or_create_tags_result (names : list string) (db : DB)
    (gs : list Tag.t) (db' : DB) :
  wf db -> _get_or_create_tags names db = Ok (gs, db') ->
  map Tag.name gs = names /\
  (forall g, In g gs -> In g (tbl_tags db')) /\
  (exists new,
     tbl_tags db' = tbl_tags db ++ new /\
     forall g, In g new ->
               In (Tag.name g) names /\
               ~ In (Tag.name g) (map Tag.name (tbl_tags db)) /\
               ~ In (Tag.id g) (map Tag.id (tbl_tags db))) /\
  tbl_tasks db' = tbl_tasks db /\ tbl_task_tags db' = tbl_task_tags db.
Proof.
  intros W H.
  destruct (get_or_create_spec names db gs db' H W)
    as (_ & T & A & _ & _ & G & N).
  destruct (get_or_create_new_rows names db gs db' H) as (new & E & _ & F).
  splits; auto. exists new. split; [assumption|].
  intros g Hg. destruct (F g Hg) as (X & Y & Z). splits; auto.
  intros Hin. apply in_map_iff in Hin as (g' & Eid & Hg').
  apply (wf_tag_seq db W) in Hg'. lia.
Qed.

Lemma X5_get_or_create_tags_witness :
  wf seed_db1 /\
  exists gs db',
    _get_or_create_tags ["home"; "work"] seed_db1 = Ok (gs, db') /\
    map Tag.name gs = ["home"; "work"].
Proof.
  assert (W : wf seed_db1).
  { apply reachable_wf. apply (reachable_step empty_db); [apply reachable_empty|].
    eapply (step_create _ _ seed_a 10). reflexivity. }
  split; [exact W|].
  destruct (_get_or_create_tags ["home"; "work"] seed_db1) as [[gs db']|e] eqn:R;
    [|vm_compute in R; discriminate].
  exists gs, db'. split; [reflexivity|].
  apply (X5_get_or_create_tags_result ["home"; "work"] seed_db1 gs db' W R).
Defined.

(** X6: resolving the same names again finds every tag and writes nothing:
    the second call answers the same tags and leaves the store as the
    first call left it. *)
Theorem X6_get_or_create_tags_idempotent (names : list string) (db : DB)
    (gs : list Tag.t) (db' : DB) :
  wf db -> _get_or_create_tags names db = Ok (gs, db') ->
  _get_or_create_tags names db' = Ok (gs, db').
Proof.
  intros W H.
  destruct (get_or_create_spec names db gs db' H W)
    as (W' & _ & _ & _ & _ & G & <-).
  apply resolve_all_existing; [apply W' | exact G].
Qed.

Lemma X6_get_or_create_tags_witness :
  wf empty_db /\
  exists gs db',
    _get_or_create_tags ["a"; "b"; "a"] empty_db = Ok (gs, db') /\
    _get_or_create_tags ["a"; "b"; "a"] db' = Ok (gs, db').
Proof.
  split; [exact wf_empty|].
  destruct (_get_or_create_tags ["a"; "b"; "a"] empty_db) as [[gs db']|e] eqn:R;
    [|vm_compute in R; discriminate].
  exists gs, db'. split; [reflexivity|].
  exact (X6_get_or_create_tags_idempotent _ _ _ _ wf_empty R).
Defined.

(** * Further properties of the store as a whole *)

Lemma step_append_only (db db' : DB) :
  wf db -> step db db' ->
  (exists new, tbl_tags db' = tbl_tags db ++ new) /\
  (exists more, map Task.id (tbl_tasks db')
                = map Task.id (tbl_tasks db) ++ more).
Proof.
  intros W [payload now r H|i payload now r H|i now db_now H].
  - apply create_task_inv in H as (gs & db1 & Hs & _ & -> & _).
    destruct (create_stage_spec payload db gs db1 Hs W)
      as (_ & T & _ & _ & N & _).
    simpl. rewrite T. split; [exact N|].
    rewrite map_app. eauto.
  - apply update_task_inv in H
      as (task & db1 & ti & pr & du & co & r0 & L & St & _ & _ & _ & _ & F & _).
    assert (Ht : In task (select_live i db)) by (rewrite L; now left).
    apply select_live_In in Ht as (Hin & Hid & _).
    destruct (update_stage_spec i payload db db1 St W) as (_ & T & N).
    { rewrite <- Hid. now apply in_map. }
    apply flush_task_inv in F as [(_ & _ & ->)|(_ & -> & -> & _)].
    + split; [exact N|]. rewrite T. exists []. now rewrite app_nil_r.
    + split; [exact N|]. rewrite update_row_ids, T. exists [].
      now rewrite app_nil_r.
  - apply delete_task_inv in H as (task & _ & -> & _).
    split; [exists []; simpl; now rewrite app_nil_r|].
    rewrite update_row_ids. exists []. now rewrite app_nil_r.
Qed.

(** Association rows leave the table only through an update that carries a
    [tags] field, and only those of the task it addresses. *)
Lemma step_association_rows (db db' : DB) (r : Z * Z) :
  wf db -> step db db' -> In r (tbl_task_tags db) ->
  In r (tbl_task_tags db') \/
  exists payload now res v,
    update_task (fst r) payload now db = Ok (res, db') /\
    TaskUpdate.tags payload = Given v.
Proof.
  intros W [payload now res H|i payload now res H|i now db_now H] Hr.
  - left. apply create_task_inv in H as (gs & db1 & Hs & _ & -> & _).
    destruct (create_stage_spec payload db gs db1 Hs W)
      as (_ & _ & A & S & _ & _).
    apply assign_tags_rows. left. simpl. rewrite A, S. split; [|exact Hr].
    pose proof (wf_fk_task db W r Hr) as Hfk.
    apply in_map_iff in Hfk as (t & E & Ht).
    apply (wf_task_seq db W) in Ht. lia.
  - pose proof H as H0.
    apply update_task_inv in H
      as (task & db1 & ti & pr & du & co & r0 & _ & St & _ & _ & _ & _ & F & _).
    assert (A : tbl_task_tags db' = tbl_task_tags db1).
    { apply flush_task_inv in F as [(_ & _ & ->)|(_ & _ & -> & _)];
        reflexivity. }
    rewrite A.
    destruct (TaskUpdate.tags payload) as [|v] eqn:U.
    + left. now injection St as <-.
    + destruct (Z.eq_dec (fst r) i) as [E|E].
      * right. subst i. exists payload, now, res, v. auto.
      * left. destruct v as [names|].
        -- destruct (_get_or_create_tags names db) as [[gs db2]|e] eqn:R;
             simpl in St; [|discriminate].
           injection St as <-. apply assign_tags_rows. left.
           split; [exact E|].
           destruct (get_or_create_frame names db gs db2 R) as (_ & -> & _).
           exact Hr.
        -- injection St as <-. apply assign_tags_rows. left. auto.
  - left. apply delete_task_inv in H as (task & _ & -> & _). exact Hr.
Qed.

(** X7: no committed request removes a tag row or a task row: after a
    create, an update or a soft delete the tags table is the old one with
    rows appended, and the stored task ids are the old ones, in place, with
    new ones appended.  The only rows a request removes are association
    rows, and only those of the task addressed by an update whose payload
    carries a [tags] field. *)
Theorem X7_only_association_rows_are_removed (db db' : DB) :
  reachable db -> step db db' ->
  (exists new, tbl_tags db' = tbl_tags db ++ new) /\
  (exists more, map Task.id (tbl_tasks db')
                = map Task.id (tbl_tasks db) ++ more) /\
  (forall task_id tag_id,
     In (task_id, tag_id) (tbl_task_tags db) ->
     In (task_id, tag_id) (tbl_task_tags db') \/
     exists payload now res v,
       update_task task_id payload now db = Ok (res, db') /\
       TaskUpdate.tags payload = Given v).
Proof.
  intros R S. pose proof (reachable_wf db R) as W.
  destruct (step_append_only db db' W S) as (A & B). splits; auto.
  intros i g Hr. exact (step_association_rows db db' (i, g) W S Hr).
Qed.

Lemma X7_only_association_rows_witness :
  reachable seed_db /\
  (exists new, tbl_tags seed_retagged_db = tbl_tags seed_db ++ new) /\
  (exists more, map Task.id (tbl_tasks seed_retagged_db)
                = map Task.id (tbl_tasks seed_db) ++ more).
Proof.
  assert (S : step seed_db seed_retagged_db)
    by (eapply (step_update _ _ 3 retag_body 30); reflexivity).
  destruct (X7_only_association_rows_are_removed seed_db seed_retagged_db
              seed_db_reachable S) as (A & B & _).
  split; [exact seed_db_reachable|]. split; [exact A | exact B].
Defined.

(** X8: every store the handlers can reach keeps the keys of the schema:
    task ids and tag ids are unique, no (task, tag) pair is stored twice,
    and every association row points at a stored task and a stored tag. *)
Theorem X8_reachable_store_keeps_keys (db : DB) :
  reachable db ->
  NoDup (map Task.id (tbl_tasks db)) /\
  NoDup (map Tag.id (tbl_tags db)) /\
  NoDup (tbl_task_tags db) /\
  (forall task_id tag_id,
     In (task_id, tag_id) (tbl_task_tags db) ->
     (exists t, In t (tbl_tasks db) /\ Task.id t = task_id) /\
     (exists g, In g (tbl_tags db) /\ Tag.id g = tag_id)).
Proof.
  intros R. pose proof (reachable_wf db R) as W. splits; try apply W.
  intros i j Hr. split.
  - apply (wf_fk_task db W) in Hr. simpl in Hr.
    apply in_map_iff in Hr as (t & E & Ht). eauto.
  - apply (wf_fk_tag db W) in Hr. simpl in Hr.
    apply in_map_iff in Hr as (g & E & Hg). eauto.
Qed.

Lemma X8_reachable_store_witness :
  reachable seed_retagged_db /\ NoDup (tbl_task_tags seed_retagged_db).
Proof.
  assert (R : reachable seed_retagged_db).
  { apply (reachable_step seed_db); [apply seed_db_reachable|].
    eapply (step_update _ _ 3 retag_body 30). reflexivity. }
  split; [exact R|].
  apply (X8_reachable_store_keeps_keys seed_retagged_db R).
Defined.

(** * Further properties of create and read *)

Lemma NoDup_map_sublist {A K : Type} (key : A -> K) (l L : list A) :
  NoDup l -> (forall x, In x l -> In x L) -> NoDup (map key L) ->
  NoDup (map key l).
Proof.
  intros Hl Hsub HL. induction Hl as [|a l' Ha _ IH]; simpl; constructor.
  - intros Hin. apply in_map_iff in Hin as (y & E & Hy). apply Ha.
    rewrite <- (NoDup_map_In_eq key L y a HL); auto.
    + apply Hsub. now right.
    + apply Hsub. now left.
  - apply IH. intros; apply Hsub; now right.
Qed.

(** The tags of a task in a well-formed store have distinct ids and
    distinct names. *)
Lemma task_tags_distinct (db : DB) (task_id : Z) :
  wf db ->
  NoDup (task_tags_of db task_id) /\
  NoDup (map Tag.name (task_tags_of db task_id)) /\
  NoDup (map Tag.id (task_tags_of db task_id)).
Proof.
  intros W.
  assert (N : NoDup (task_tags_of db task_id))
    by (apply task_tags_of_NoDup; apply W).
  assert (S : forall g, In g (task_tags_of db task_id) -> In g (tbl_tags db))
    by (intros g Hg; now apply task_tags_of_In in Hg).
  splits; auto.
  - apply (NoDup_map_sublist Tag.name _ (tbl_tags db)); auto. apply W.
  - apply (NoDup_map_sublist Tag.id _ (tbl_tags db)); auto. apply W.
Qed.

(** The collection a task carries once [task.tags = gs] is flushed holds
    the tags of [gs], each once. *)
Lemma assign_tags_same_elements (task_id : Z) (gs : list Tag.t) (db : DB) :
  wf db -> (forall g, In g gs -> In g (tbl_tags db)) ->
  same_elements (task_tags_of (assign_tags task_id gs db) task_id) gs.
Proof.
  intros W Hsub g. rewrite assign_tags_loaded. split.
  - intros [Hg Hid]. apply in_map_iff in Hid as (g' & E & Hg').
    rewrite (NoDup_map_In_eq Tag.id (tbl_tags db) g g'); auto. apply W.
  - intros Hg. split; [now apply Hsub | now apply in_map].
Qed.

Lemma same_elements_map {A B : Type} (f : A -> B) (l1 l2 : list A) :
  same_elements l1 l2 -> same_elements (map f l1) (map f l2).
Proof.
  intros H y. rewrite !in_map_iff. split; intros (x & E & Hx); exists x;
    (split; [assumption | now apply H]).
Qed.

(** X9: a task that [create_task] returns has the next id of the sequence,
    which no stored task has, the fields of the payload, [completed] and
    [is_deleted] false, no [deleted_at], and both timestamps at the current
    time; its row is appended to the tasks table, its tags have exactly the
    names of the payload, each once, and reading its id back returns the
    same task. *)
Theorem X9_create_then_get (payload : TaskCreate.t) (now : Z) (db : DB)
    (r : TaskORM) (db' : DB) :
  wf db -> create_task payload now db = Ok (r, db') ->
  row r = Task.mk (tasks_id_seq db) (TaskCreate.title payload)
                  (TaskCreate.description payload)
                  (TaskCreate.priority payload) (TaskCreate.due_date payload)
                  false false None now now /\
  ~ In (tasks_id_seq db) (map Task.id (tbl_tasks db)) /\
  tbl_tasks db' = tbl_tasks db ++ [row r] /\
  get_task (tasks_id_seq db) db' = Ok r /\
  same_elements (map Tag.name (tags r))
                (match TaskCreate.tags payload with
                 | Some names => names
                 | None => []
                 end) /\
  NoDup (map Tag.name (tags r)).
Proof.
  intros W H. pose proof (wf_create_task _ _ _ _ _ W H) as W'.
  apply create_task_inv in H as (gs & db1 & Hs & _ & Hdb & ->).
  destruct (create_stage_spec payload db gs db1 Hs W)
    as (W1 & T & A & S & _ & G).
  assert (Hrows : tbl_tasks db' = tbl_tasks db ++
            [Task.mk (tasks_id_seq db) (TaskCreate.title payload)
                     (TaskCreate.description payload)
                     (TaskCreate.priority payload)
                     (TaskCreate.due_date payload) false false None now now])
    by (rewrite Hdb; simpl; now rewrite T, S).
  unfold load; simpl. rewrite S. splits.
  - reflexivity.
  - intros Hin. apply in_map_iff in Hin as (t & E & Ht).
    apply (wf_task_seq db W) in Ht. lia.
  - exact Hrows.
  - unfold get_task.
    set (t := Task.mk (tasks_id_seq db) _ _ _ _ false false None now now) in *.
    change (tasks_id_seq db) with (Task.id t) at 1.
    rewrite (select_live_one db' t (wf_task_ids db' W')); simpl; auto.
    rewrite Hrows. apply in_app_iff. right. now left.
  - assert (E : map Tag.name gs
                = match TaskCreate.tags payload with
                  | Some names => names
                  | None => []
                  end).
    { destruct (TaskCreate.tags payload) as [names|];
        [|now injection Hs as <- _].
      destruct names as [|n ns]; [now injection Hs as <- _|].
      simpl PyStr.nonempty in Hs. cbv iota in Hs.
      now destruct (get_or_create_spec _ _ _ _ Hs W) as (_ & _ & _ & _ & _ & _ & N). }
    rewrite <- E. apply same_elements_map. rewrite Hdb. simpl. rewrite S.
    set (db2 := mkDB _ _ _ _ _).
    apply (assign_tags_same_elements (tasks_id_seq db) gs db2); [|exact G].
    (* the store with the new row, before its tags are attached *)
    constructor; simpl; try apply W1.
    + rewrite map_app; simpl. apply NoDup_app;
        [apply W1 | repeat constructor; auto |].
      intros i Hi [<-|[]]. apply in_map_iff in Hi as (t & Eid & Ht).
      apply (wf_task_seq db1 W1) in Ht. lia.
    + intros t Ht. apply in_app_iff in Ht as [Ht|[<-|[]]]; simpl.
      * apply (wf_task_seq db1 W1) in Ht. lia.
      * lia.
    + intros x Hx. rewrite map_app. apply in_app_iff. left.
      now apply (wf_fk_task db1 W1).
    + intros t Ht. apply in_app_iff in Ht as [Ht|[<-|[]]]; simpl.
      * now apply (wf_titles db1 W1).
      * pose proof (wf_titles db' W') as Hti.
        specialize (Hti (Task.mk (tasks_id_seq db) (TaskCreate.title payload)
                     (TaskCreate.description payload)
                     (TaskCreate.priority payload)
                     (TaskCreate.due_date payload) false false None now now)).
        simpl in Hti. apply Hti. rewrite Hrows. apply in_app_iff. right.
        now left.
  - apply task_tags_distinct. exact W'.
Qed.

Lemma X9_create_then_get_witness :
  wf seed_db3 /\
  exists r db',
    create_task seed_d 13 seed_db3 = Ok (r, db') /\
    get_task 4 db' = Ok r /\ Task.id (row r) = 4.
Proof.
  assert (W : wf seed_db3).
  { apply reachable_wf.
    apply (reachable_step seed_db2).
    - apply (reachable_step seed_db1).
      + apply (reachable_step empty_db); [apply reachable_empty|].
        eapply (step_create _ _ seed_a 10). reflexivity.
      + eapply (step_create _ _ seed_b 11). reflexivity.
    - eapply (step_create _ _ seed_c 12). reflexivity. }
  split; [exact W|].
  destruct (create_task seed_d 13 seed_db3) as [[r db']|e] eqn:C;
    [|vm_compute in C; discriminate].
  exists r, db'. split; [reflexivity|].
  destruct (X9_create_then_get seed_d 13 seed_db3 r db' W C)
    as (E & _ & _ & G & _).
  split; [exact G | now rewrite E].
Defined.

(** X10: a created task counts in a listing without tag filter exactly
    when it passes the completed and priority filters: the total grows by
    one then, and stays as it was otherwise. *)
Theorem X10_create_then_list_total (payload : TaskCreate.t) (now : Z)
    (db : DB) (r : TaskORM) (db' : DB) (completed : option bool)
    (priority : option Z) (limit offset : Z) :
  create_task payload now db = Ok (r, db') ->
  total (list_tasks completed priority None limit offset db')
  = total (list_tasks completed priority None limit offset db)
    + (if where_filters completed priority (row r) then 1 else 0).
Proof.
  intros H. apply create_task_inv in H as (gs & db1 & Hs & _ & -> & ->).
  assert (T : tbl_tasks db1 = tbl_tasks db).
  { destruct (TaskCreate.tags payload) as [names|]; [|congruence].
    destruct (PyStr.nonempty names); [|congruence].
    now apply get_or_create_frame in Hs. }
  unfold list_tasks, query_rows; simpl. rewrite T, filter_app; simpl.
  rewrite length_app, Nat2Z.inj_add.
  destruct (where_filters completed priority _); reflexivity.
Qed.

Lemma X10_create_then_list_witness :
  exists r db',
    create_task seed_d 13 seed_db3 = Ok (r, db') /\
    total (list_tasks None (Some 5) None 20 0 db') = 2 /\
    total (list_tasks None (Some 3) None 20 0 db') = 1.
Proof.
  destruct (create_task seed_d 13 seed_db3) as [[r db']|e] eqn:C;
    [|vm_compute in C; discriminate].
  exists r, db'. split; [reflexivity|].
  rewrite (X10_create_then_list_total seed_d 13 seed_db3 r db' None (Some 5)
             20 0 C).
  rewrite (X10_create_then_list_total seed_d 13 seed_db3 r db' None (Some 3)
             20 0 C).
  vm_compute in C. injection C as <- <-. split; reflexivity.
Defined.

(** Once its id is bound, [get_task] answers a task exactly when a stored
    task has the id and is not deleted, and then answers that row with its
    tags; in every other case it raises 404. *)
Lemma get_task_once_bound (task_id : Z) (db : DB) :
  wf db ->
  (forall r, get_task task_id db = Ok r <->
             In (row r) (tbl_tasks db) /\ Task.id (row r) = task_id /\
             Task.is_deleted (row r) = false /\
             tags r = task_tags_of db task_id) /\
  (get_task task_id db = Raise HTTP404 <-> ~ live db task_id) /\
  (forall e, get_task task_id db = Raise e -> e = HTTP404).
Proof.
  intros W. unfold get_task, live.
  destruct (select_live_cases db task_id (wf_task_ids db W)) as [(t & L)|L];
    rewrite L; simpl.
  - assert (Ht : In t (select_live task_id db)) by (rewrite L; now left).
    apply select_live_In in Ht as (Hin & Hid & Hlive). splits.
    + intros r. split.
      * intros [= <-]. simpl. rewrite Hid. auto.
      * intros (Hr & Hrid & Hrl & Htags). f_equal. destruct r as [rr rt].
        simpl in *. unfold load. rewrite Hid, <- Htags. f_equal.
        apply (NoDup_map_In_eq Task.id (tbl_tasks db)); auto;
          [apply W | congruence].
    + split; [discriminate|]. intros Hn. exfalso. apply Hn. eauto.
    + discriminate.
  - splits.
    + intros r. split; [discriminate|]. intros (Hr & Hrid & Hrl & _).
      assert (X : In (row r) (select_live task_id db))
        by (apply select_live_In; auto).
      rewrite L in X. destruct X.
    + split; [|reflexivity]. intros _ (t & Hin & Hid & Hlive).
      assert (X : In t (select_live task_id db))
        by (apply select_live_In; auto).
      rewrite L in X. destruct X.
    + now intros e [= <-].
Qed.

(** X11: [GET /tasks/{id}] has three outcomes.  For an id within the 32-bit
    range of the id column it answers a task exactly when a stored task has
    the id and is not deleted, and then answers that row with its tags, and
    raises 404 otherwise; for an id outside the range the lookup fails with
    the driver's error.  It raises nothing else. *)
Theorem X11_get_task_request_outcomes (task_id : Z) (db : DB) :
  wf db ->
  (forall r, get_task_request task_id db = Ok r <->
             int32 task_id = true /\
             In (row r) (tbl_tasks db) /\ Task.id (row r) = task_id /\
             Task.is_deleted (row r) = false /\
             tags r = task_tags_of db task_id) /\
  (get_task_request task_id db = Raise HTTP404 <->
   int32 task_id = true /\ ~ live db task_id) /\
  (get_task_request task_id db = Raise DBAPIError <-> int32 task_id = false) /\
  (forall e, get_task_request task_id db = Raise e ->
             e = HTTP404 \/ e = DBAPIError).
Proof.
  intros W. destruct (get_task_once_bound task_id db W) as (F & N & O).
  unfold get_task_request. destruct (int32 task_id) eqn:I.
  - rewrite (request_bound (fun i => get_task i db) task_id I). splits.
    + intros r. rewrite F. tauto.
    + rewrite N. tauto.
    + split; [|discriminate]. intros E.
      apply O in E. discriminate E.
    + intros e E. left. now apply O.
  - rewrite (request_unbound (fun i => get_task i db) task_id I). splits.
    + intros r. split; [discriminate|]. intros (X & _). discriminate X.
    + split; [discriminate|]. intros (X & _). discriminate X.
    + tauto.
    + intros e [= <-]. now right.
Qed.

Lemma X11_get_task_request_witness :
  wf seed_deleted_db /\
  get_task_request 1 seed_deleted_db = Raise HTTP404 /\
  get_task_request (2 ^ 31) seed_deleted_db = Raise DBAPIError /\
  exists r, get_task_request 2 seed_deleted_db = Ok r /\ Task.id (row r) = 2.
Proof.
  destruct (X11_get_task_request_outcomes 1 seed_deleted_db wf_seed_deleted_db)
    as (_ & N & _).
  destruct (X11_get_task_request_outcomes (2 ^ 31) seed_deleted_db
              wf_seed_deleted_db) as (_ & _ & D & _).
  destruct (X11_get_task_request_outcomes 2 seed_deleted_db wf_seed_deleted_db)
    as (F & _).
  split; [exact wf_seed_deleted_db|]. split; [|split].
  - apply N. split; [reflexivity|]. intros (t & Hin & Hid & Hlive).
    vm_compute in Hin.
    repeat (destruct Hin as [<-|Hin]; [simpl in *; try discriminate; try lia|]).
    destruct Hin.
  - apply D. reflexivity.
  - destruct (get_task_request 2 seed_deleted_db) as [r|e] eqn:G;
      [|vm_compute in G; discriminate].
    exists r. split; [reflexivity|].
    now destruct (proj1 (F r) eq_refl) as (_ & _ & E & _).
Defined.

(** * Further properties of update *)

Lemma get_or_create_error (names : list string) :
  forall (db : DB) (e : error),
    _get_or_create_tags names db = Raise e -> e <> HTTP404.
Proof.
  induction names as [|name rest IH]; simpl; intros db e H; [discriminate|].
  destruct (scalar_one_or_none _) as [found|e0] eqn:L; simpl in H.
  - destruct (match found with Some tag => Ok (tag, db)
                          | None => insert_tag name db end)
      as [[g db1]|e1] eqn:F; simpl in H.
    + destruct (_get_or_create_tags rest db1) as [[gs db2]|e2] eqn:R;
        simpl in H; [discriminate|].
      injection H as <-. now apply (IH db1).
    + injection H as <-. destruct found; [discriminate|].
      unfold insert_tag in F.
      destruct (100 <? _); [injection F as <-; discriminate|].
      destruct (existsb _ _); [injection F as <-; discriminate | discriminate].
  - injection H as <-.
    destruct (filter _ _) as [|a [|b r]]; simpl in L; try discriminate.
    injection L as <-. discriminate.
Qed.

Lemma set_column_error {A : Type} (f : field A) (old : A) (e : error) :
  set_column f old = Raise e -> e = IntegrityError.
Proof. destruct f as [|[v|]]; simpl; congruence. Qed.

Lemma flush_task_error (loaded changed : Task.t) (now : Z) (db : DB)
    (e : error) :
  flush_task loaded changed now db = Raise e -> e = DataError.
Proof.
  unfold flush_task, check_task. destruct (Task.eq_dec _ _); [discriminate|].
  destruct (200 <? _); simpl; congruence.
Qed.

(** Once its id is bound, [update_task] raises 404 exactly when no stored
    task has the id and is not deleted, and the store is then left as it
    was. *)
Lemma update_404_once_bound (task_id : Z) (payload : TaskUpdate.t)
    (now : Z) (db : DB) :
  wf db ->
  (update_task task_id payload now db = Raise HTTP404 <-> ~ live db task_id) /\
  (~ live db task_id ->
   get_db (update_task task_id payload now) db = (Raise HTTP404, db)).
Proof.
  intros W.
  assert (N : ~ live db task_id ->
              update_task task_id payload now db = Raise HTTP404).
  { intros Hn. unfold update_task. rewrite select_live_none; [reflexivity|].
    intros t Hin Hid. destruct (Task.is_deleted t) eqn:E; [reflexivity|].
    exfalso. apply Hn. exists t. auto. }
  split; [split; [|exact N] | intros Hn; unfold get_db; now rewrite (N Hn)].
  intros E (t & Hin & Hid & Hlive). subst task_id.
  unfold update_task in E.
  rewrite (select_live_one db t (wf_task_ids db W) Hin Hlive) in E.
  simpl in E.
  destruct (match TaskUpdate.tags payload with
            | Unset => Ok db
            | Given (Some tag_names) => _
            | Given None => _ end) as [db1|e0] eqn:St; simpl in E.
  - destruct (set_column (TaskUpdate.title payload) _) as [ti|e1] eqn:E1;
      simpl in E; [|apply set_column_error in E1; congruence].
    destruct (set_column (TaskUpdate.priority payload) _) as [pr|e2] eqn:E2;
      simpl in E; [|apply set_column_error in E2; congruence].
    destruct (set_column (TaskUpdate.due_date payload) _) as [du|e3] eqn:E3;
      simpl in E; [|apply set_column_error in E3; congruence].
    destruct (set_column (TaskUpdate.completed payload) _) as [co|e4] eqn:E4;
      simpl in E; [|apply set_column_error in E4; congruence].
    destruct (flush_task _ _ _ _) as [[r0 db2]|e5] eqn:F; simpl in E;
      [discriminate|].
    apply flush_task_error in F. congruence.
  - injection E as ->.
    destruct (TaskUpdate.tags payload) as [|[names|]]; try discriminate.
    destruct (_get_or_create_tags names db) as [[gs db2]|e] eqn:R;
      simpl in St; [discriminate|].
    injection St as ->. now apply get_or_create_error in R.
Qed.

(** X12: [PATCH /tasks/{id}] raises 404 exactly when the id is within the
    32-bit range of the id column and no stored task has it and is not
    deleted; an id outside the range makes the lookup fail with the driver's
    error instead.  Either way the store is left as it was. *)
Theorem X12_update_request_not_found (task_id : Z) (payload : TaskUpdate.t)
    (now : Z) (db : DB) :
  wf db ->
  (update_task_request task_id payload now db = Raise HTTP404 <->
   int32 task_id = true /\ ~ live db task_id) /\
  (int32 task_id = true -> ~ live db task_id ->
   get_db (update_task_request task_id payload now) db
   = (Raise HTTP404, db)) /\
  (int32 task_id = false ->
   get_db (update_task_request task_id payload now) db
   = (Raise DBAPIError, db)).
Proof.
  intros W. destruct (update_404_once_bound task_id payload now db W) as (N & S).
  unfold get_db, update_task_request. destruct (int32 task_id) eqn:I.
  - rewrite (request_bound (fun i => update_task i payload now db) task_id I).
    splits.
    + rewrite N. tauto.
    + intros _ Hn. unfold get_db in S. now apply S.
    + discriminate.
  - rewrite (request_unbound (fun i => update_task i payload now db) task_id I).
    splits.
    + split; [discriminate|]. intros (X & _). discriminate X.
    + discriminate.
    + reflexivity.
Qed.

Lemma X12_update_request_witness :
  wf seed_deleted_db /\
  get_db (update_task_request 1 (title_body "Nope") 30) seed_deleted_db
  = (Raise HTTP404, seed_deleted_db) /\
  get_db (update_task_request (- 2 ^ 31 - 1) (title_body "Nope") 30)
         seed_deleted_db
  = (Raise DBAPIError, seed_deleted_db).
Proof.
  destruct (X12_update_request_not_found 1 (title_body "Nope") 30
              seed_deleted_db wf_seed_deleted_db) as (_ & N & _).
  destruct (X12_update_request_not_found (- 2 ^ 31 - 1) (title_body "Nope") 30
              seed_deleted_db wf_seed_deleted_db) as (_ & _ & D).
  split; [exact wf_seed_deleted_db|]. split.
  - apply N; [reflexivity|]. intros (t & Hin & Hid & Hlive).
    vm_compute in Hin.
    repeat (destruct Hin as [<-|Hin]; [simpl in *; try discriminate; try lia|]).
    destruct Hin.
  - apply D. reflexivity.
Defined.

(** The columns of the row an update returns. *)
Lemma update_task_columns (task_id : Z) (payload : TaskUpdate.t) (now : Z)
    (db : DB) (r : TaskORM) (db' : DB) :
  wf db -> update_task task_id payload now db = Ok (r, db') ->
  exists old,
    In old (tbl_tasks db) /\ Task.id old = task_id /\
    set_column (TaskUpdate.title payload) (Task.title old)
      = Ok (Task.title (row r)) /\
    set_column (TaskUpdate.priority payload) (Task.priority old)
      = Ok (Task.priority (row r)) /\
    set_column (TaskUpdate.due_date payload) (Task.due_date old)
      = Ok (Task.due_date (row r)) /\
    set_column (TaskUpdate.completed payload) (Task.completed old)
      = Ok (Task.completed (row r)) /\
    Task.description (row r)
    = set_nullable (TaskUpdate.description payload) (Task.description old).
Proof.
  intros W H.
  destruct (update_task_outcome _ _ _ _ _ _ W H)
    as (old & ti & pr & du & co & Hin & Hid & _ & _ & E1 & E2 & E3 & E4 & C & _).
  exists old.
  assert (X : Task.title (row r) = ti /\ Task.priority (row r) = pr /\
              Task.due_date (row r) = du /\ Task.completed (row r) = co /\
              Task.description (row r)
              = set_nullable (TaskUpdate.description payload)
                             (Task.description old)).
  { destruct C as [[E ->]|[_ ->]]; simpl; [|splits; reflexivity].
    splits; now rewrite <- E at 1. }
  destruct X as (-> & -> & -> & -> & ->). splits; auto.
Qed.

(** X13: a successful update writes every field the payload gives: title,
    priority, due_date and completed take the given value, and description
    takes what is given, null included. *)
Theorem X13_update_writes_given_fields (task_id : Z) (payload : TaskUpdate.t)
    (now : Z) (db : DB) (r : TaskORM) (db' : DB) :
  wf db -> update_task task_id payload now db = Ok (r, db') ->
  (forall v, TaskUpdate.title payload = Given (Some v) ->
             Task.title (row r) = v) /\
  (forall v, TaskUpdate.description payload = Given v ->
             Task.description (row r) = v) /\
  (forall v, TaskUpdate.priority payload = Given (Some v) ->
             Task.priority (row r) = v) /\
  (forall v, TaskUpdate.due_date payload = Given (Some v) ->
             Task.due_date (row r) = v) /\
  (forall v, TaskUpdate.completed payload = Given (Some v) ->
             Task.completed (row r) = v).
Proof.
  intros W H.
  destruct (update_task_columns _ _ _ _ _ _ W H)
    as (old & _ & _ & E1 & E2 & E3 & E4 & D).
  splits; intros v U.
  - rewrite U in E1. simpl in E1. congruence.
  - rewrite U in D. exact D.
  - rewrite U in E2. simpl in E2. congruence.
  - rewrite U in E3. simpl in E3. congruence.
  - rewrite U in E4. simpl in E4. congruence.
Qed.

Lemma X13_update_writes_witness :
  wf seed_db /\
  exists r db',
    update_task 2 (TaskUpdate.mk Unset (Given None) (Given (Some 4)) Unset
                                 (Given (Some true)) Unset) 30 seed_db
    = Ok (r, db') /\
    Task.priority (row r) = 4 /\ Task.completed (row r) = true.
Proof.
  split; [exact wf_seed_db|].
  set (p := TaskUpdate.mk Unset (Given None) (Given (Some 4)) Unset
                          (Given (Some true)) Unset).
  destruct (update_task 2 p 30 seed_db) as [[r db']|e] eqn:U;
    [|vm_compute in U; discriminate].
  exists r, db'. split; [reflexivity|].
  destruct (X13_update_writes_given_fields 2 p 30 seed_db r db' wf_seed_db U)
    as (_ & _ & P & _ & C).
  split; [exact (P 4 eq_refl) | exact (C true eq_refl)].
Defined.

(** X14: a successful update whose payload gives a list of tag names
    replaces the tag set: the returned task carries exactly the given
    names, each once, whatever it carried before. *)
Theorem X14_update_replaces_tags (task_id : Z) (payload : TaskUpdate.t)
    (names : list string) (now : Z) (db : DB) (r : TaskORM) (db' : DB) :
  wf db -> TaskUpdate.tags payload = Given (Some names) ->
  update_task task_id payload now db = Ok (r, db') ->
  same_elements (map Tag.name (tags r)) names /\
  NoDup (map Tag.name (tags r)) /\
  get_task task_id db' = Ok r.
Proof.
  intros W U H. pose proof (wf_update_task _ _ _ _ _ _ W H) as W'.
  destruct (update_task_outcome _ _ _ _ _ _ W H)
    as (_ & _ & _ & _ & _ & _ & _ & _ & _ & _ & _ & _ & _ & _ & G & Htags & _).
  apply update_task_inv in H
    as (task & db1 & ti & pr & du & co & r0 & L & St & _ & _ & _ & _ & F & _).
  rewrite U in St.
  destruct (_get_or_create_tags names db) as [[gs db2]|e] eqn:R;
    simpl in St; [|discriminate].
  injection St as <-.
  destruct (get_or_create_spec names db gs db2 R W)
    as (W2 & _ & _ & _ & _ & Hgs & <-).
  splits; auto.
  - rewrite Htags. apply same_elements_map.
    replace (task_tags_of db' task_id)
      with (task_tags_of (assign_tags task_id gs db2) task_id).
    + now apply assign_tags_same_elements.
    + apply flush_task_inv in F as [(_ & _ & ->)|(_ & _ & -> & _)];
        reflexivity.
  - rewrite Htags. now apply task_tags_distinct.
Qed.

Lemma X14_update_replaces_tags_witness :
  wf seed_db /\
  exists r db',
    update_task 3 retag_body 30 seed_db = Ok (r, db') /\
    same_elements (map Tag.name (tags r)) ["home"; "work"].
Proof.
  split; [exact wf_seed_db|].
  destruct (update_task 3 retag_body 30 seed_db) as [[r db']|e] eqn:U;
    [|vm_compute in U; discriminate].
  exists r, db'. split; [reflexivity|].
  apply (X14_update_replaces_tags 3 retag_body ["home"; "work"] 30 seed_db r db'
           wf_seed_db eq_refl U).
Defined.

(** X15: an update that gives null for title, priority, due_date or
    completed never succeeds, so the session is rolled back and the store
    stays as it was; on a live task, with no tags in the payload, the
    failure is the integrity error of the NOT NULL column (a title, when
    one is given, being within its 200 characters). *)
Theorem X15_update_null_in_required_column (task_id : Z)
    (payload : TaskUpdate.t) (now : Z) (db : DB) :
  TaskUpdate.title payload = Given None \/
  TaskUpdate.priority payload = Given None \/
  TaskUpdate.due_date payload = Given None \/
  TaskUpdate.completed payload = Given None ->
  (forall r db', update_task task_id payload now db <> Ok (r, db')) /\
  snd (get_db (update_task task_id payload now) db) = db /\
  (wf db -> live db task_id -> TaskUpdate.tags payload = Unset ->
   (forall s, TaskUpdate.title payload = Given (Some s) ->
              Z.of_nat (String.length s) <= 200) ->
   update_task task_id payload now db = Raise IntegrityError).
Proof.
  intros Hnull.
  assert (No : forall r db', update_task task_id payload now db <> Ok (r, db')).
  { intros r db' H. apply update_task_inv in H
      as (task & db1 & ti & pr & du & co & r0 & _ & _ & E1 & E2 & E3 & E4 & _).
    destruct Hnull as [U|[U|[U|U]]];
      [rewrite U in E1 | rewrite U in E2 | rewrite U in E3 | rewrite U in E4];
      discriminate. }
  splits; [exact No | |].
  - unfold get_db.
    destruct (update_task task_id payload now db) as [[r db']|e] eqn:H;
      [exfalso; exact (No r db' eq_refl) | reflexivity].
  - intros W (t & Hin & Hid & Hlive) U _. subst task_id. unfold update_task.
    rewrite (select_live_one db t (wf_task_ids db W) Hin Hlive). simpl.
    rewrite U. simpl.
    destruct (TaskUpdate.title payload) as [|[v1|]],
             (TaskUpdate.priority payload) as [|[v2|]],
             (TaskUpdate.due_date payload) as [|[v3|]],
             (TaskUpdate.completed payload) as [|[v4|]];
      simpl; auto; exfalso; destruct Hnull as [X|[X|[X|X]]]; discriminate.
Qed.

Lemma X15_update_null_witness :
  TaskUpdate.title (TaskUpdate.mk (Given None) Unset Unset Unset Unset Unset)
  = Given None /\
  update_task 1 (TaskUpdate.mk (Given None) Unset Unset Unset Unset Unset) 30
              seed_db = Raise IntegrityError.
Proof.
  split; [reflexivity|].
  destruct (X15_update_null_in_required_column 1
              (TaskUpdate.mk (Given None) Unset Unset Unset Unset Unset) 30
              seed_db (or_introl eq_refl)) as (_ & _ & E).
  apply E; [exact wf_seed_db | | reflexivity | intros s [=]].
  eexists. splits; [now left | reflexivity | reflexivity].
Defined.

(** *** What an update or a delete leaves alone *)

Lemma flat_map_nil {A B : Type} (f : A -> list B) (l : list A) :
  (forall x, In x l -> f x = []) -> flat_map f l = [].
Proof.
  induction l as [|a r IH]; simpl; intros H; [reflexivity|].
  rewrite (H a (or_introl eq_refl)). apply IH. intros; apply H; now right.
Qed.

Lemma flat_map_filter_skip {A B : Type} (f : A -> list B) (k : A -> bool)
    (l : list A) :
  (forall x, In x l -> k x = false -> f x = []) ->
  flat_map f (filter k l) = flat_map f l.
Proof.
  induction l as [|a r IH]; simpl; intros H; [reflexivity|].
  destruct (k a) eqn:E; simpl.
  - f_equal. apply IH. intros; apply H; auto.
  - rewrite (H a (or_introl eq_refl) E). apply IH. intros; apply H; auto.
Qed.

Lemma flat_map_same {A B : Type} (f g : A -> list B) (l : list A) :
  (forall x, In x l -> f x = g x) -> flat_map f l = flat_map g l.
Proof.
  induction l as [|a r IH]; simpl; intros H; [reflexivity|].
  rewrite (H a (or_introl eq_refl)). f_equal. apply IH.
  intros; apply H; now right.
Qed.

Lemma assign_tags_other (i j : Z) (gs : list Tag.t) (db : DB) :
  j <> i -> task_tags_of (assign_tags i gs db) j = task_tags_of db j.
Proof.
  intros Hne. unfold task_tags_of, assign_tags; simpl.
  rewrite flat_map_app.
  rewrite (flat_map_nil _ (map _ _)).
  - rewrite app_nil_r. apply flat_map_filter_skip.
    intros [a b] _ Hk. simpl in *.
    apply orb_false_iff in Hk as [Hk _]. apply negb_false_iff in Hk.
    apply Z.eqb_eq in Hk. subst a.
    destruct (i =? j) eqn:E; [apply Z.eqb_eq in E; congruence | reflexivity].
  - intros [a b] Hin. apply in_map_iff in Hin as (x & [= <- <-] & _). simpl.
    destruct (i =? j) eqn:E; [apply Z.eqb_eq in E; congruence | reflexivity].
Qed.

(** Appending tag rows with fresh ids changes no task's tags. *)
Lemma tags_append_other (db db2 : DB) (new : list Tag.t) (j : Z) :
  wf db -> tbl_tags db2 = tbl_tags db ++ new ->
  tbl_task_tags db2 = tbl_task_tags db ->
  (forall g, In g new -> ~ In (Tag.id g) (map Tag.id (tbl_tags db))) ->
  task_tags_of db2 j = task_tags_of db j.
Proof.
  intros W T A F. unfold task_tags_of. rewrite A, T.
  apply flat_map_same. intros [a b] Hr. simpl.
  destruct (a =? j); [|reflexivity].
  rewrite filter_app. rewrite (filter_all_false _ new); [apply app_nil_r|].
  intros g Hg. apply Z.eqb_neq. intros E. apply (F g Hg). rewrite E.
  apply (wf_fk_tag db W (a, b) Hr).
Qed.

Lemma select_live_update_row (r : Task.t) (db : DB) (j : Z) :
  Task.id r <> j -> select_live j (update_row r db) = select_live j db.
Proof.
  intros Hne. unfold select_live, update_row; simpl.
  induction (tbl_tasks db) as [|t l IH]; simpl; [reflexivity|].
  rewrite IH. destruct (Task.id t =? Task.id r) eqn:E.
  - apply Z.eqb_eq in E.
    assert (X : (Task.id r =? j) = false) by now apply Z.eqb_neq.
    assert (Y : (Task.id t =? j) = false) by (rewrite E; exact X).
    now rewrite X, Y.
  - reflexivity.
Qed.

Lemma get_task_same (db db' : DB) (j : Z) :
  select_live j db' = select_live j db ->
  task_tags_of db' j = task_tags_of db j ->
  get_task j db' = get_task j db.
Proof.
  intros S T. unfold get_task. rewrite S.
  destruct (select_live j db) as [|t [|t' l]] eqn:L; simpl; try reflexivity.
  assert (Ht : In t (select_live j db)) by (rewrite L; now left).
  apply select_live_In in Ht as (_ & Hid & _).
  unfold load. now rewrite Hid, T.
Qed.

Lemma update_stage_other (i : Z) (payload : TaskUpdate.t) (db db1 : DB)
    (j : Z) :
  match TaskUpdate.tags payload with
  | Unset => Ok db
  | Given (Some tag_names) =>
      '(tags, db2) <- _get_or_create_tags tag_names db ;;
      Ok (assign_tags i tags db2)
  | Given None => Ok (assign_tags i [] db)
  end = Ok db1 ->
  wf db -> j <> i -> task_tags_of db1 j = task_tags_of db j.
Proof.
  intros St W Hne.
  destruct (TaskUpdate.tags payload) as [|[names|]].
  - now injection St as <-.
  - destruct (_get_or_create_tags names db) as [[gs db2]|e] eqn:R;
      simpl in St; [|discriminate].
    injection St as <-. rewrite assign_tags_other by assumption.
    destruct (get_or_create_frame names db gs db2 R) as (_ & A & _).
    destruct (get_or_create_new_rows names db gs db2 R) as (new & N & _ & F).
    apply (tags_append_other db db2 new); auto.
    intros g Hg Hin. destruct (F g Hg) as (_ & _ & Hid).
    apply in_map_iff in Hin as (g' & E & Hg').
    apply (wf_tag_seq db W) in Hg'. lia.
  - injection St as <-. now apply assign_tags_other.
Qed.

(** X16: an update changes one task only: reading any other id gives, after
    the update, the answer it gave before, row and tags alike. *)
Theorem X16_update_leaves_other_tasks (task_id : Z) (payload : TaskUpdate.t)
    (now : Z) (db : DB) (r : TaskORM) (db' : DB) (other : Z) :
  wf db -> update_task task_id payload now db = Ok (r, db') ->
  other <> task_id ->
  get_task other db' = get_task other db.
Proof.
  intros W H Hne.
  apply update_task_inv in H
    as (task & db1 & ti & pr & du & co & r0 & L & St & _ & _ & _ & _ & F & _).
  assert (Ht : In task (select_live task_id db)) by (rewrite L; now left).
  apply select_live_In in Ht as (Hin & Hid & _).
  assert (Hmem : In task_id (map Task.id (tbl_tasks db)))
    by (rewrite <- Hid; now apply in_map).
  destruct (update_stage_spec task_id payload db db1 St W Hmem) as (_ & T & _).
  pose proof (update_stage_other task_id payload db db1 other St W Hne) as G.
  assert (S1 : select_live other db1 = select_live other db)
    by (unfold select_live; now rewrite T).
  apply get_task_same.
  - apply flush_task_inv in F as [(_ & _ & ->)|(_ & -> & -> & _)];
      [exact S1|].
    rewrite select_live_update_row; [exact S1 | simpl; congruence].
  - apply flush_task_inv in F as [(_ & _ & ->)|(_ & _ & -> & _)]; exact G.
Qed.

Lemma X16_update_leaves_other_witness :
  wf seed_db /\
  exists r db',
    update_task 3 retag_body 30 seed_db = Ok (r, db') /\
    get_task 1 db' = get_task 1 seed_db.
Proof.
  split; [exact wf_seed_db|].
  destruct (update_task 3 retag_body 30 seed_db) as [[r db']|e] eqn:U;
    [|vm_compute in U; discriminate].
  exists r, db'. split; [reflexivity|].
  apply (X16_update_leaves_other_tasks 3 retag_body 30 seed_db r db' 1
           wf_seed_db U). lia.
Defined.

(** X17: a soft delete writes three columns of one row: the deleted task
    keeps its id, title, description, priority, due date, completed flag and
    creation time and gets [updated_at] from the clock of the UPDATE; its
    association rows, every tag row and every other task stay as they
    were. *)
Theorem X17_delete_writes_one_row (task_id now db_now : Z) (db db' : DB) :
  wf db -> delete_task task_id now db_now db = Ok (tt, db') ->
  (exists old,
     get_task task_id db = Ok (load db old) /\
     In (Task.mk task_id (Task.title old) (Task.description old)
                 (Task.priority old) (Task.due_date old)
                 (Task.completed old) true (Some now)
                 (Task.created_at old) db_now)
        (tbl_tasks db')) /\
  tbl_tags db' = tbl_tags db /\
  tbl_task_tags db' = tbl_task_tags db /\
  task_tags_of db' task_id = task_tags_of db task_id /\
  (forall other, other <> task_id ->
                 get_task other db' = get_task other db).
Proof.
  intros W H. apply delete_task_inv in H as (task & L & -> & _).
  assert (Ht : In task (select_live task_id db)) by (rewrite L; now left).
  apply select_live_In in Ht as (Hin & Hid & Hlive).
  splits; try reflexivity.
  - exists task. split; [unfold get_task; now rewrite L|].
    rewrite <- Hid. now apply (update_row_has _ task).
  - intros other Hne. apply get_task_same; [|reflexivity].
    apply select_live_update_row. simpl. congruence.
Qed.

Lemma X17_delete_writes_one_row_witness :
  wf seed_db /\
  delete_task 1 20 20 seed_db = Ok (tt, seed_deleted_db) /\
  tbl_task_tags seed_deleted_db = tbl_task_tags seed_db /\
  get_task 3 seed_deleted_db = get_task 3 seed_db.
Proof.
  assert (D : delete_task 1 20 20 seed_db = Ok (tt, seed_deleted_db))
    by reflexivity.
  destruct (X17_delete_writes_one_row 1 20 20 seed_db seed_deleted_db
              wf_seed_db D) as (_ & _ & A & _ & O).
  splits; [exact wf_seed_db | exact D | exact A | apply O; lia].
Defined.

(** *** Repeating an update *)

Lemma assign_tags_fixed (i : Z) (gs : list Tag.t) (db : DB) :
  (forall x, In (i, x) (tbl_task_tags db) <-> In x (map Tag.id gs)) ->
  assign_tags i gs db = db.
Proof.
  intros H. unfold assign_tags.
  rewrite (filter_all_true _ (tbl_task_tags db)).
  - rewrite (filter_all_false _ (nodup Z.eq_dec (map Tag.id gs))).
    + simpl. rewrite app_nil_r. now destruct db.
    + intros x Hx. apply nodup_In in Hx. apply negb_false_iff.
      apply existsb_eqb_In, in_map_iff. exists (i, x). split; [reflexivity|].
      apply filter_In. split; [now apply H | simpl; apply Z.eqb_refl].
  - intros [a b] Hr. simpl. destruct (a =? i) eqn:E; [|reflexivity].
    apply Z.eqb_eq in E. subst a. simpl.
    apply existsb_eqb_In, nodup_In. now apply H.
Qed.

Lemma assign_tags_again (i : Z) (gs : list Tag.t) (db0 db : DB) :
  tbl_task_tags db = tbl_task_tags (assign_tags i gs db0) ->
  assign_tags i gs db = db.
Proof.
  intros E. apply assign_tags_fixed. intros x. rewrite E, assign_tags_rows.
  simpl. intuition congruence.
Qed.

Lemma set_column_again {A : Type} (f : field A) (old v : A) :
  set_column f old = Ok v -> set_column f v = Ok v.
Proof. destruct f as [|[w|]]; simpl; congruence. Qed.

Lemma set_nullable_again {A : Type} (f : field A) (old : option A) :
  set_nullable f (set_nullable f old) = set_nullable f old.
Proof. now destruct f. Qed.

(** An update that finds everything as the payload wants it writes
    nothing. *)
Lemma update_task_fixed (payload : TaskUpdate.t) (now : Z) (db : DB)
    (t : Task.t) :
  wf db -> In t (tbl_tasks db) -> Task.is_deleted t = false ->
  match TaskUpdate.tags payload with
  | Unset => Ok db
  | Given (Some tag_names) =>
      '(tags, db2) <- _get_or_create_tags tag_names db ;;
      Ok (assign_tags (Task.id t) tags db2)
  | Given None => Ok (assign_tags (Task.id t) [] db)
  end = Ok db ->
  set_column (TaskUpdate.title payload) (Task.title t) = Ok (Task.title t) ->
  set_column (TaskUpdate.priority payload) (Task.priority t)
  = Ok (Task.priority t) ->
  set_column (TaskUpdate.due_date payload) (Task.due_date t)
  = Ok (Task.due_date t) ->
  set_column (TaskUpdate.completed payload) (Task.completed t)
  = Ok (Task.completed t) ->
  set_nullable (TaskUpdate.description payload) (Task.description t)
  = Task.description t ->
  update_task (Task.id t) payload now db = Ok (load db t, db).
Proof.
  intros W Hin Hlive St E1 E2 E3 E4 D. unfold update_task.
  rewrite (select_live_one db t (wf_task_ids db W) Hin Hlive). simpl.
  rewrite St. simpl. rewrite E1. simpl. rewrite E2. simpl. rewrite E3. simpl.
  rewrite E4. simpl. rewrite D. unfold flush_task.
  destruct (Task.eq_dec _ t) as [_|Hne]; [reflexivity|].
  exfalso. apply Hne. now destruct t.
Qed.

(** X18: sending the same update again changes nothing: the second call
    answers the task the first one answered and leaves the store as the
    first one left it, [updated_at] included, whatever the time of the
    second call. *)
Theorem X18_update_idempotent (task_id : Z) (payload : TaskUpdate.t)
    (now now' : Z) (db : DB) (r : TaskORM) (db' : DB) :
  wf db -> update_task task_id payload now db = Ok (r, db') ->
  update_task task_id payload now' db' = Ok (r, db').
Proof.
  intros W H. pose proof (wf_update_task _ _ _ _ _ _ W H) as W'.
  apply update_task_inv in H
    as (task & db1 & ti & pr & du & co & r0 & L & St & E1 & E2 & E3 & E4 & F & ->).
  assert (Ht : In task (select_live task_id db)) by (rewrite L; now left).
  apply select_live_In in Ht as (Hin & Hid & Hlive).
  assert (Hmem : In task_id (map Task.id (tbl_tasks db)))
    by (rewrite <- Hid; now apply in_map).
  destruct (update_stage_spec task_id payload db db1 St W Hmem) as (W1 & T & _).
  assert (R0 : In r0 (tbl_tasks db') /\ Task.id r0 = task_id /\
               Task.is_deleted r0 = false /\
               Task.title r0 = ti /\ Task.priority r0 = pr /\
               Task.due_date r0 = du /\ Task.completed r0 = co /\
               Task.description r0
               = set_nullable (TaskUpdate.description payload)
                              (Task.description task) /\
               tbl_task_tags db' = tbl_task_tags db1 /\
               tbl_tags db' = tbl_tags db1).
  { apply flush_task_inv in F as [(E & -> & ->)|(_ & -> & -> & _)].
    - rewrite T. splits; auto; now rewrite <- E at 1.
    - splits; auto.
      apply (update_row_has _ task); [now rewrite T | reflexivity]. }
  destruct R0 as (Hin0 & Hid0 & Hlive0 & Eti & Epr & Edu & Eco & Ede & A & G).
  rewrite <- Hid0. apply update_task_fixed; auto.
  - rewrite Hid0. clear F.
    destruct (TaskUpdate.tags payload) as [|[names|]].
    + reflexivity.
    + destruct (_get_or_create_tags names db) as [[gs db2]|e] eqn:R;
        simpl in St; [|discriminate].
      injection St as <-.
      destruct (get_or_create_spec names db gs db2 R W)
        as (_ & _ & _ & _ & _ & Hgs & <-).
      rewrite (resolve_all_existing gs db'); [| apply W' |].
      * simpl. now rewrite (assign_tags_again task_id gs db2 db').
      * intros g Hg. rewrite G. simpl. now apply Hgs.
    + injection St as <-. now rewrite (assign_tags_again task_id [] db db').
  - rewrite Eti. eapply set_column_again; eauto.
  - rewrite Epr. eapply set_column_again; eauto.
  - rewrite Edu. eapply set_column_again; eauto.
  - rewrite Eco. eapply set_column_again; eauto.
  - rewrite Ede. apply set_nullable_again.
Qed.

Lemma X18_update_idempotent_witness :
  wf seed_db /\
  exists r db',
    update_task 3 (TaskUpdate.mk (Given (Some "Task C2")) Unset Unset Unset
                                 Unset (Given (Some ["home"; "work"])))
                30 seed_db = Ok (r, db') /\
    update_task 3 (TaskUpdate.mk (Given (Some "Task C2")) Unset Unset Unset
                                 Unset (Given (Some ["home"; "work"])))
                40 db' = Ok (r, db').
Proof.
  split; [exact wf_seed_db|].
  set (p := TaskUpdate.mk (Given (Some "Task C2")) Unset Unset Unset Unset
                          (Given (Some ["home"; "work"]))).
  destruct (update_task 3 p 30 seed_db) as [[r db']|e] eqn:U;
    [|vm_compute in U; discriminate].
  exists r, db'. split; [reflexivity|].
  exact (X18_update_idempotent 3 p 30 40 seed_db r db' wf_seed_db U).
Defined.

(** * Further properties of the listing *)

(** In a well-formed store a page is a window of the ordered query. *)
Lemma page_tasks (c : option bool) (p : option Z) (tg : option string)
    (l o : Z) (db : DB) :
  wf db ->
  tasks (list_tasks c p tg l o db)
  = map (load db)
        (firstn (Z.to_nat l)
                (skipn (Z.to_nat o)
                       (order_by_created_at_desc (query_rows c p tg db)))).
Proof.
  intros W. pose proof (page_window c p tg l o db (wf_task_ids db W)) as P.
  unfold list_tasks in *; simpl in *. f_equal.
  rewrite map_map in P. simpl in P. now rewrite map_id in P.
Qed.

Lemma firstn_plus {A : Type} (a b : nat) (l : list A) :
  firstn (a + b) l = firstn a l ++ firstn b (skipn a l).
Proof.
  revert l; induction a as [|a IH]; intros [|x l]; simpl;
    try reflexivity.
  - now rewrite firstn_nil.
  - now rewrite IH.
Qed.

(** Windows of one ordered list join: the window of [limit1] rows at
    [offset] followed by the window of [limit2] rows at [offset + limit1] is
    the window of [limit1 + limit2] rows at [offset]. *)
Lemma windows_join
    (completed : option bool) (priority : option Z) (tags : option string)
    (limit1 limit2 offset : Z) (db : DB) :
  wf db -> 0 <= limit1 -> 0 <= limit2 -> 0 <= offset ->
  tasks (list_tasks completed priority tags limit1 offset db)
  ++ tasks (list_tasks completed priority tags limit2 (offset + limit1) db)
  = tasks (list_tasks completed priority tags (limit1 + limit2) offset db).
Proof.
  intros W H1 H2 Ho. rewrite !page_tasks by assumption.
  rewrite <- map_app. f_equal.
  rewrite !Z2Nat.inj_add by assumption.
  rewrite firstn_plus, skipn_skipn.
  now rewrite (Nat.add_comm (Z.to_nat limit1)).
Qed.

(** Once the parameters are bound, a page holds as many tasks as the limit
    allows and the total leaves after the offset. *)
Lemma page_length_once_bound
    (completed : option bool) (priority : option Z) (tags : option string)
    (limit offset : Z) (db : DB) :
  wf db -> 0 <= limit -> 0 <= offset ->
  let page := list_tasks completed priority tags limit offset db in
  Z.of_nat (List.length (tasks page))
  = Z.min limit (Z.max 0 (total page - offset)).
Proof.
  intros W Hl Ho page. unfold page. rewrite page_tasks by assumption.
  rewrite length_map, length_firstn, length_skipn, order_by_length.
  unfold list_tasks; simpl. lia.
Qed.

Lemma insert_desc_sorted (t : Task.t) (l : list Task.t) :
  StronglySorted newest_first l -> StronglySorted newest_first (insert_desc t l).
Proof.
  induction 1 as [|x r Hr IH Hx]; simpl.
  - repeat constructor.
  - destruct (Task.created_at x <=? Task.created_at t) eqn:E.
    + apply Z.leb_le in E. constructor; [now constructor|].
      constructor; [exact E|].
      eapply Forall_impl; [|exact Hx]. unfold newest_first. intros; lia.
    + apply Z.leb_gt in E. constructor; [exact IH|].
      eapply Permutation_Forall;
        [apply Permutation_sym, insert_desc_perm|].
      constructor; [unfold newest_first; lia | exact Hx].
Qed.

Lemma order_by_sorted (l : list Task.t) :
  StronglySorted newest_first (order_by_created_at_desc l).
Proof.
  unfold order_by_created_at_desc.
  induction l as [|x r IH]; simpl; [constructor | now apply insert_desc_sorted].
Qed.

Lemma sorted_skipn {A : Type} (R : A -> A -> Prop) (n : nat) (l : list A) :
  StronglySorted R l -> StronglySorted R (skipn n l).
Proof.
  revert l; induction n as [|n IH]; intros l H; [exact H|].
  destruct H; simpl; [constructor | now apply IH].
Qed.

Lemma sorted_firstn {A : Type} (R : A -> A -> Prop) (n : nat) (l : list A) :
  StronglySorted R l -> StronglySorted R (firstn n l).
Proof.
  revert l; induction n as [|n IH]; intros l H; [constructor|].
  destruct H as [|x r Hr Hx]; simpl; constructor; [now apply IH|].
  rewrite Forall_forall in *. intros y Hy. apply Hx.
  now apply In_firstn in Hy.
Qed.

(** With creation times that differ, newest first is one order only. *)
Lemma newest_first_unique (l1 : list Task.t) :
  forall l2 : list Task.t,
    StronglySorted newest_first l1 -> StronglySorted newest_first l2 ->
    Permutation l1 l2 -> NoDup (map Task.created_at l1) -> l1 = l2.
Proof.
  induction l1 as [|a r1 IH]; intros l2 S1 S2 P N.
  - now apply Permutation_nil in P.
  - destruct l2 as [|b r2];
      [apply Permutation_sym, Permutation_nil in P; discriminate P|].
    inversion S1 as [|? ? S1' F1]; subst.
    inversion S2 as [|? ? S2' F2]; subst.
    rewrite Forall_forall in F1, F2.
    assert (Hb : In b (a :: r1))
      by (apply (Permutation_in _ (Permutation_sym P)); now left).
    assert (Ha : In a (b :: r2)) by (apply (Permutation_in _ P); now left).
    assert (Lba : Task.created_at b <= Task.created_at a).
    { destruct Hb as [<-|Hb]; [lia | exact (F1 b Hb)]. }
    assert (Lab : Task.created_at a <= Task.created_at b).
    { destruct Ha as [<-|Ha]; [lia | exact (F2 a Ha)]. }
    assert (E : a = b).
    { apply (NoDup_map_In_eq Task.created_at (a :: r1)); auto;
        [now left | lia]. }
    subst b. f_equal. apply IH; auto.
    + now apply Permutation_cons_inv in P.
    + now inversion N.
Qed.

(** X19: when the tasks that match were created at instants that all
    differ, consecutive pages join: whenever the three requests succeed, the
    page of [limit1] tasks at [offset] followed by the page of [limit2]
    tasks at [offset + limit1] is the page of [limit1 + limit2] tasks at
    [offset].  The order of the rows is then forced by ORDER BY created_at
    DESC alone: every newest-first arrangement of the matching rows is the
    one the pages are cut from. *)
Theorem X19_consecutive_pages_join
    (completed : option bool) (priority : option Z) (tags : option string)
    (limit1 limit2 offset : Z) (db : DB)
    (page1 page2 page : PaginatedTaskResponse) :
  wf db ->
  NoDup (map Task.created_at (query_rows completed priority tags db)) ->
  list_tasks_request completed priority tags limit1 offset db = Ok page1 ->
  list_tasks_request completed priority tags limit2 (offset + limit1) db
  = Ok page2 ->
  list_tasks_request completed priority tags (limit1 + limit2) offset db
  = Ok page ->
  tasks page1 ++ tasks page2 = tasks page /\
  (forall rows,
     Permutation rows (query_rows completed priority tags db) ->
     StronglySorted newest_first rows ->
     rows = order_by_created_at_desc
              (query_rows completed priority tags db)).
Proof.
  intros W N H1 H2 H.
  apply list_tasks_request_ok in H1 as (_ & L1 & O1 & ->).
  apply list_tasks_request_ok in H2 as (_ & L2 & _ & ->).
  apply list_tasks_request_ok in H as (_ & _ & _ & ->).
  split.
  - apply windows_join; auto; lia.
  - intros rows P S. symmetry. apply newest_first_unique.
    + apply order_by_sorted.
    + exact S.
    + eapply perm_trans; [apply order_by_perm | now apply Permutation_sym].
    + eapply Permutation_NoDup; [|exact N].
      apply Permutation_map, Permutation_sym, order_by_perm.
Qed.

Lemma X19_consecutive_pages_witness :
  wf seed_db /\
  NoDup (map Task.created_at (query_rows None None None seed_db)) /\
  exists page1 page2 page,
    list_tasks_request None None None 2 0 seed_db = Ok page1 /\
    list_tasks_request None None None 2 (0 + 2) seed_db = Ok page2 /\
    list_tasks_request None None None (2 + 2) 0 seed_db = Ok page /\
    page_ids page1 = [4; 3] /\ page_ids page2 = [2; 1] /\
    tasks page1 ++ tasks page2 = tasks page.
Proof.
  assert (N : NoDup (map Task.created_at (query_rows None None None seed_db))).
  { vm_compute. repeat constructor; simpl; intuition discriminate. }
  split; [exact wf_seed_db|]. split; [exact N|].
  eexists _, _, _.
  split; [reflexivity|]. split; [reflexivity|]. split; [reflexivity|].
  split; [reflexivity|]. split; [reflexivity|].
  apply (X19_consecutive_pages_join None None None 2 2 0 seed_db _ _ _
           wf_seed_db N eq_refl eq_refl eq_refl).
Defined.

(** X20: a listing that succeeds holds as many tasks as the limit allows
    and the total leaves after the offset:
    [min limit (max 0 (total - offset))]. *)
Theorem X20_page_length
    (completed : option bool) (priority : option Z) (tags : option string)
    (limit offset : Z) (db : DB) (page : PaginatedTaskResponse) :
  wf db ->
  list_tasks_request completed priority tags limit offset db = Ok page ->
  Z.of_nat (List.length (tasks page))
  = Z.min limit (Z.max 0 (total page - offset)).
Proof.
  intros W H. apply list_tasks_request_ok in H as (_ & L & O & ->).
  apply page_length_once_bound; auto; lia.
Qed.

Lemma X20_page_length_witness :
  wf seed_db /\
  exists page,
    list_tasks_request None None None 3 2 seed_db = Ok page /\
    List.length (tasks page) = 2%nat.
Proof.
  split; [exact wf_seed_db|].
  eexists. split; [reflexivity|].
  apply Nat2Z.inj.
  rewrite (X20_page_length None None None 3 2 seed_db _ wf_seed_db eq_refl).
  reflexivity.
Defined.

(** X21: every page is ordered newest first: a task never comes before one
    that was created later. *)
Theorem X21_page_newest_first
    (completed : option bool) (priority : option Z) (tags : option string)
    (limit offset : Z) (db : DB) :
  wf db ->
  StronglySorted newest_first
    (map row (tasks (list_tasks completed priority tags limit offset db))).
Proof.
  intros W. rewrite (page_window _ _ _ _ _ _ (wf_task_ids db W)).
  apply sorted_firstn, sorted_skipn, order_by_sorted.
Qed.

Lemma X21_page_newest_first_witness :
  wf seed_db /\
  StronglySorted newest_first
    (map row (tasks (list_tasks None None (Some "work,urgent") 20 0 seed_db))).
Proof.
  split; [exact wf_seed_db|].
  apply (X21_page_newest_first None None (Some "work,urgent") 20 0 seed_db
           wf_seed_db).
Defined.

Lemma existsb_same {A : Type} (f : A -> bool) (l1 l2 : list A) :
  same_elements l1 l2 -> existsb f l1 = existsb f l2.
Proof.
  intros H. destruct (existsb f l1) eqn:E1, (existsb f l2) eqn:E2;
    try reflexivity.
  - apply existsb_exists in E1 as (x & Hx & Fx).
    assert (X : existsb f l2 = true)
      by (apply existsb_exists; exists x; split; [now apply H | exact Fx]).
    congruence.
  - apply existsb_exists in E2 as (x & Hx & Fx).
    assert (X : existsb f l1 = true)
      by (apply existsb_exists; exists x; split; [now apply H | exact Fx]).
    congruence.
Qed.

Lemma join_tags_same (ns ns' : list string) (rows : list Task.t) (db : DB) :
  same_elements ns ns' -> join_tags ns rows db = join_tags ns' rows db.
Proof.
  intros H. unfold join_tags. f_equal.
  apply flat_map_same. intros t _. apply flat_map_same. intros r _.
  destruct (fst r =? Task.id t); [|reflexivity]. f_equal.
  apply filter_ext. intros g. f_equal. now apply existsb_same.
Qed.

(** X22: the tag filter reads its parameter as a set of names: two [tags]
    strings that yield the same names, in any order and with any
    repetition, case and spacing, give the same response. *)
Theorem X22_tag_filter_is_a_set
    (completed : option bool) (priority : option Z) (tags tags' : string)
    (limit offset : Z) (db : DB) :
  same_elements (tag_names_of tags) (tag_names_of tags') ->
  list_tasks completed priority (Some tags) limit offset db
  = list_tasks completed priority (Some tags') limit offset db.
Proof.
  intros H.
  assert (Hnil : forall s, PyStr.truthy s = false -> tag_names_of s = [])
    by (intros [|c r]; [reflexivity | discriminate]).
  assert (Q : query_rows completed priority (Some tags) db
              = query_rows completed priority (Some tags') db).
  { unfold query_rows.
    destruct (tag_names_of tags) as [|n ns] eqn:E.
    - destruct (tag_names_of tags') as [|n' ns'] eqn:E'.
      + simpl. now destruct (PyStr.truthy tags), (PyStr.truthy tags').
      + exfalso. apply (proj2 (H n')). now left.
    - destruct (tag_names_of tags') as [|n' ns'] eqn:E'.
      + exfalso. apply (proj1 (H n)). now left.
      + destruct (PyStr.truthy tags) eqn:T;
          [|rewrite (Hnil tags T) in E; discriminate].
        destruct (PyStr.truthy tags') eqn:T';
          [|rewrite (Hnil tags' T') in E'; discriminate].
        simpl. now apply join_tags_same. }
  unfold list_tasks. now rewrite Q.
Qed.

Lemma X22_tag_filter_is_a_set_witness :
  same_elements (tag_names_of "work,urgent")
                (tag_names_of " URGENT , work,,Work") /\
  list_tasks None None (Some "work,urgent") 20 0 seed_db
  = list_tasks None None (Some " URGENT , work,,Work") 20 0 seed_db.
Proof.
  assert (S : same_elements (tag_names_of "work,urgent")
                            (tag_names_of " URGENT , work,,Work")).
  { intros x. vm_compute. tauto. }
  split; [exact S|].
  exact (X22_tag_filter_is_a_set None None "work,urgent"
           " URGENT , work,,Work" 20 0 seed_db S).
Defined.

(** X23: a tag filter none of whose names is the name of a stored tag
    matches nothing: the total is 0 and the page is empty. *)
Theorem X23_unknown_tags_match_nothing
    (completed : option bool) (priority : option Z) (tags : string)
    (names : list string) (limit offset : Z) (db : DB) :
  requested_tags (Some tags) = Some names ->
  (forall g, In g (tbl_tags db) -> ~ In (Tag.name g) names) ->
  total (list_tasks completed priority (Some tags) limit offset db) = 0 /\
  tasks (list_tasks completed priority (Some tags) limit offset db) = [].
Proof.
  intros Hreq Hnone.
  assert (Q : query_rows completed priority (Some tags) db = []).
  { destruct (query_rows completed priority (Some tags) db) as [|t l] eqn:E;
      [reflexivity|].
    assert (Ht : In t (query_rows completed priority (Some tags) db))
      by (rewrite E; now left).
    apply query_rows_In in Ht. rewrite Hreq in Ht.
    apply filter_In in Ht as [_ Hm]. rewrite matches_where in Hm.
    apply andb_prop in Hm as [_ Hm].
    apply intersects_spec in Hm as (g & Hg & Hn).
    apply task_tags_of_In in Hg as [Hg _]. now apply Hnone in Hg. }
  unfold list_tasks. rewrite Q. simpl.
  now rewrite skipn_nil, firstn_nil.
Qed.

Lemma X23_unknown_tags_witness :
  requested_tags (Some "nonexistent_xyz") = Some ["nonexistent_xyz"] /\
  total (list_tasks None None (Some "nonexistent_xyz") 20 0 seed_db) = 0 /\
  tasks (list_tasks None None (Some "nonexistent_xyz") 20 0 seed_db) = [].
Proof.
  split; [reflexivity|].
  apply (X23_unknown_tags_match_nothing None None "nonexistent_xyz"
           ["nonexistent_xyz"] 20 0 seed_db eq_refl).
  intros g Hg Hn. vm_compute in Hg.
  repeat (destruct Hg as [<-|Hg];
          [simpl in Hn; destruct Hn as [Hn|[]]; discriminate|]).
  destruct Hg.
Defined.

(** X24: without a [tags] parameter the listing holds exactly the stored
    tasks that are not deleted and whose [completed] and [priority] equal
    the given values: each page shows only such tasks, with their stored
    tags, and each such task is on some page. *)
Theorem X24_listing_without_tags
    (completed : option bool) (priority : option Z) (limit : Z) (db : DB)
    (t : Task.t) :
  wf db -> 1 <= limit ->
  ((exists offset,
      0 <= offset /\
      In (load db t) (tasks (list_tasks completed priority None limit offset db)))
   <->
   In t (tbl_tasks db) /\ Task.is_deleted t = false /\
   (forall c, completed = Some c -> Task.completed t = c) /\
   (forall p, priority = Some p -> Task.priority t = p)).
Proof.
  intros W Hl.
  assert (M : In t (query_rows completed priority None db) <->
              In t (tbl_tasks db) /\ Task.is_deleted t = false /\
              (forall c, completed = Some c -> Task.completed t = c) /\
              (forall p, priority = Some p -> Task.priority t = p)).
  { unfold query_rows. rewrite filter_In. unfold where_filters.
    rewrite !andb_true_iff, negb_true_iff. split.
    - intros (Hin & (Hd & Hc) & Hp). splits; auto.
      + intros c ->. now apply eqb_prop.
      + intros p ->. now apply Z.eqb_eq.
    - intros (Hin & Hd & Hc & Hp). splits; auto.
      + destruct completed as [c|]; [|reflexivity].
        rewrite (Hc c eq_refl). apply eqb_reflx.
      + destruct priority as [p|]; [|reflexivity].
        rewrite (Hp p eq_refl). apply Z.eqb_refl. }
  rewrite <- M. split.
  - intros (o & _ & Hin). apply page_rows in Hin as [Hin _]. exact Hin.
  - intros Hq.
    destruct (query_row_on_a_page completed priority None limit db t W Hl Hq)
      as (o & Ho & Hin).
    exists o. split; [exact Ho|].
    apply in_map_iff in Hin as (x & <- & Hx).
    pose proof (page_rows _ _ _ _ _ _ _ Hx) as [_ Ht].
    replace (load db (row x)) with x; [exact Hx|].
    destruct x as [xr xt]. simpl in *. unfold load. simpl. now rewrite Ht.
Qed.

Lemma X24_listing_without_tags_witness :
  wf seed_deleted_db /\ 1 <= 20 /\
  exists offset,
    0 <= offset /\
    In (load seed_deleted_db
             (Task.mk 4 "Task D" None 5 tomorrow false false None 13 13))
       (tasks (list_tasks (Some false) (Some 5) None 20 offset seed_deleted_db)).
Proof.
  splits; [exact wf_seed_deleted_db | lia |].
  apply (X24_listing_without_tags (Some false) (Some 5) 20 seed_deleted_db
           (Task.mk 4 "Task D" None 5 tomorrow false false None 13 13)
           wf_seed_deleted_db); [lia|].
  splits; [vm_compute; tauto | reflexivity | |]; now intros ? [= <-].
Defined.

(** * The validation error response *)

Section ValidationErrors.

Import Exceptions.

Lemma dict_get_set (k k' v : string) (d : list (string * string)) :
  dict_get k (dict_set k' v d)
  = if String.eqb k' k then Some v else dict_get k d.
Proof.
  induction d as [|[a b] r IH]; simpl.
  - reflexivity.
  - destruct (String.eqb a k') eqn:E; simpl.
    + apply String.eqb_eq in E. subst a. now destruct (String.eqb k' k).
    + rewrite IH. destruct (String.eqb a k) eqn:E2; [|reflexivity].
      apply String.eqb_eq in E2. subst a.
      destruct (String.eqb k' k) eqn:E3; [|reflexivity].
      apply String.eqb_eq in E3. subst k'. now rewrite String.eqb_refl in E.
Qed.

Lemma dict_set_keys (k v : string) (d : list (string * string)) (x : string) :
  In x (map fst (dict_set k v d)) <-> x = k \/ In x (map fst d).
Proof.
  induction d as [|[a b] r IH]; simpl.
  - intuition.
  - destruct (String.eqb a k) eqn:E; simpl.
    + apply String.eqb_eq in E. subst a. intuition.
    + rewrite IH. intuition.
Qed.

Lemma dict_set_NoDup (k v : string) (d : list (string * string)) :
  NoDup (map fst d) -> NoDup (map fst (dict_set k v d)).
Proof.
  induction d as [|[a b] r IH]; simpl; intros H.
  - repeat constructor. intros [].
  - inversion H as [|? ? Hnotin Hr]; subst.
    destruct (String.eqb a k) eqn:E; simpl; constructor; auto.
    intros Hin. apply dict_set_keys in Hin as [->|Hin]; [|contradiction].
    now rewrite String.eqb_refl in E.
Qed.

Lemma find_last {A : Type} (p : A -> bool) (l : list A) (x : A) :
  find p (l ++ [x])
  = match find p l with
    | Some y => Some y
    | None => if p x then Some x else None
    end.
Proof.
  induction l as [|a r IH]; simpl; [reflexivity|].
  destruct (p a); [reflexivity | exact IH].
Qed.

Lemma details_get (errors : list validation_error) :
  forall (d : list (string * string)) (k : string),
    dict_get k (fold_left (fun details e => dict_set (field_of e) (msg e) details)
                          errors d)
    = match find (fun e => String.eqb (field_of e) k) (rev errors) with
      | Some e => Some (msg e)
      | None => dict_get k d
      end.
Proof.
  induction errors as [|e es IH]; simpl; intros d k; [reflexivity|].
  rewrite IH, find_last, dict_get_set.
  destruct (find _ (rev es)); [reflexivity|].
  now destruct (String.eqb (field_of e) k).
Qed.

Lemma details_keys (errors : list validation_error) :
  forall (d : list (string * string)) (k : string),
    In k (map fst (fold_left
                     (fun details e => dict_set (field_of e) (msg e) details)
                     errors d))
    <-> In k (map fst d) \/ exists e, In e errors /\ field_of e = k.
Proof.
  induction errors as [|e es IH]; simpl; intros d k.
  - split; [now left | intros [H|(e & [] & _)]; exact H].
  - rewrite IH, dict_set_keys. split.
    + intros [[->|H]|(e' & He' & E)]; eauto.
    + intros [H|(e' & [<-|He'] & E)]; eauto.
Qed.

Lemma details_NoDup (errors : list validation_error) :
  forall d : list (string * string),
    NoDup (map fst d) ->
    NoDup (map fst (fold_left
                      (fun details e => dict_set (field_of e) (msg e) details)
                      errors d)).
Proof.
  induction errors as [|e es IH]; simpl; intros d H; [exact H|].
  apply IH. now apply dict_set_NoDup.
Qed.

End ValidationErrors.

(** X25: the 422 response names each failing field once: the keys of
    [details] are exactly the field names of the errors, [body] segments
    left out, and when several errors share a field name the message of the
    last one is the one reported. *)
Theorem X25_validation_details_last_error_wins
    (errors : list Exceptions.validation_error) :
  let resp := Exceptions.validation_exception_handler errors in
  Exceptions.resp_status resp = 422 /\
  NoDup (map fst (Exceptions.resp_details resp)) /\
  (forall k, In k (map fst (Exceptions.resp_details resp)) <->
             exists e, In e errors /\ Exceptions.field_of e = k) /\
  (forall k,
     Exceptions.dict_get k (Exceptions.resp_details resp)
     = option_map Exceptions.msg
         (find (fun e => String.eqb (Exceptions.field_of e) k) (rev errors))) /\
  (forall name m,
     name <> "body" ->
     Exceptions.field_of
       (Exceptions.mkErr [Exceptions.LocStr "body"; Exceptions.LocStr name] m)
     = name).
Proof.
  simpl. splits.
  - reflexivity.
  - apply details_NoDup. constructor.
  - intros k. rewrite details_keys. simpl. tauto.
  - intros k. rewrite details_get. simpl.
    now destruct (find _ (rev errors)).
  - intros name m Hne. unfold Exceptions.field_of. simpl.
    apply String.eqb_neq in Hne. now rewrite Hne.
Qed.
